(** * Resilient fetch and chapter-download engine: a shallow embedding

    The development follows [scraper.py] (class [Scraper]) and [cache.py]
    (class [NovelCache]).  Python values are modelled as follows.

    - [str] is [string]; a character is a code point below 256, so
      [lower], [strip] and the regular-expression classes are the
      restriction of Python's to that range.
    - [int] is [Z]; list lengths and loop indices are [nat].
    - a [dict] with a fixed set of keys is a record; [None] is [None].
    - the cache directory is a finite map from relative paths to the
      record stored in the file; JSON encoding is taken to round-trip.
      A progress file whose name is built from a user id with a path
      separator cannot be opened; other file-system errors are left out.
    - an exception is followed to the clause that catches it: [int] on
      more digits than it converts, [open] on a path that does not exist,
      the pool of workers on a size that is not positive.
    - the network, the HTML parser and [urllib.parse] are inputs of the
      functions that call them. *)

From Stdlib Require Import ZArith QArith String Ascii List Lia Permutation Sorted.
From stdpp Require Import base option list sorting gmap strings pretty.

Local Open Scope Z_scope.

(** ** Python strings *)

Module PyStr.

Definition code (c : ascii) : N := N_of_ascii c.

Definition is_digit (c : ascii) : bool :=
  ((48 <=? code c) && (code c <=? 57))%N.

(** [str.lower] on one code point below 256: A-Z, and the Latin-1
    capitals other than the multiplication sign. *)
Definition lower_char (c : ascii) : ascii :=
  let n := code c in
  if (((65 <=? n) && (n <=? 90)) || ((192 <=? n) && (n <=? 214))
      || ((216 <=? n) && (n <=? 222)))%N
  then ascii_of_N (n + 32) else c.

Fixpoint lower (s : string) : string :=
  match s with
  | EmptyString => EmptyString
  | String c t => String (lower_char c) (lower t)
  end.

(** [s.startswith(p)] *)
Fixpoint startswith (p s : string) : bool :=
  match p, s with
  | EmptyString, _ => true
  | String a p', String b s' => if Ascii.eqb a b then startswith p' s' else false
  | String _ _, EmptyString => false
  end.

(** [needle in hay] *)
Fixpoint contains (needle hay : string) : bool :=
  startswith needle hay ||
  match hay with
  | EmptyString => false
  | String _ t => contains needle t
  end.

(** [s[:n]] *)
Fixpoint take (n : nat) (s : string) : string :=
  match n, s with
  | O, _ => EmptyString
  | _, EmptyString => EmptyString
  | S n', String c t => String c (take n' t)
  end.

(** [s[n:]] *)
Fixpoint drop (n : nat) (s : string) : string :=
  match n, s with
  | O, _ => s
  | _, EmptyString => EmptyString
  | S n', String _ t => drop n' t
  end.

Definition len (s : string) : nat := String.length s.

(** Truth value of a string: empty is false. *)
Definition truthy (s : string) : bool :=
  match s with EmptyString => false | _ => true end.

(** The longest run of decimal digits at the head of [s], and the rest. *)
Fixpoint digits_span (s : string) : string * string :=
  match s with
  | String c t =>
      if is_digit c then let '(d, r) := digits_span t in (String c d, r)
      else (EmptyString, s)
  | EmptyString => (EmptyString, EmptyString)
  end.

(** [int(d)] for a string of decimal digits. *)
Fixpoint int_acc (acc : Z) (d : string) : Z :=
  match d with
  | EmptyString => acc
  | String c t => int_acc (10 * acc + (Z.of_N (code c) - 48)) t
  end.

Definition int (d : string) : Z := int_acc 0 d.

(** [sys.get_int_max_str_digits()], by default. *)
Definition int_max_str_digits : nat := 4300.

(** [int(s)] on a string of decimal digits: it raises [ValueError] on the
    empty string and on more digits than the limit (leading zeros count). *)
Definition int_of_digits (s : string) : option Z :=
  if truthy s && (len s <=? int_max_str_digits)%nat then Some (int s) else None.

(** [re.search]: the leftmost position at which a match succeeds. *)
Fixpoint search {A} (m : string -> option A) (s : string) : option A :=
  match m s with
  | Some x => Some x
  | None =>
      match s with
      | EmptyString => None
      | String _ t => search m t
      end
  end.

(** [str.replace(old, new)] for a non-empty [old]; [fuel] bounds the
    number of characters scanned. *)
Fixpoint replace_fuel (fuel : nat) (old new s : string) : string :=
  match fuel with
  | O => s
  | S f =>
      match s with
      | EmptyString => EmptyString
      | String c t =>
          if startswith old s then new +:+ replace_fuel f old new (drop (len old) s)
          else String c (replace_fuel f old new t)
      end
  end.

Definition replace (old new s : string) : string :=
  if truthy old then replace_fuel (len s) old new s else s.

End PyStr.

Import PyStr.

(** [a or b] on integers. *)
Definition py_or (a b : Z) : Z := if a =? 0 then b else a.

(** ** Chapter numbers inferred from a URL or a title *)

Definition is_sep (c : ascii) : bool :=
  Ascii.eqb c "-" || Ascii.eqb c "_".

Definition nonempty_digits (s : string) : option (string * string) :=
  let '(d, r) := digits_span s in
  if truthy d then Some (d, r) else None.

(** [chapter[-_]?(\d+)], ignoring case, anchored at the head of [s]; the
    value is the group, a run of digits.  The separator is taken when
    present: dropping it would leave the separator where a digit is
    required. *)
Definition match_chapter_dash (s : string) : option string :=
  if startswith "chapter" (lower (take 7 s)) then
    let r := drop 7 s in
    let r' := match r with
              | String c t => if is_sep c then t else r
              | EmptyString => r
              end in
    match nonempty_digits r' with
    | Some (d, _) => Some d
    | None => None
    end
  else None.

(** [$]: the end of the string, or just before a final newline. *)
Definition at_end (s : string) : bool :=
  String.eqb s "" || String.eqb s (String (ascii_of_N 10) "").

(** [/(\d+)(?:\.html)?$] anchored at the head of [s]. *)
Definition match_trailing_number (s : string) : option string :=
  match s with
  | String "/" t =>
      match nonempty_digits t with
      | Some (d, r) =>
          if at_end r || (startswith ".html" r && at_end (drop 5 r))
          then Some d else None
      | None => None
      end
  | _ => None
  end.

(** [/c(\d+)], ignoring case, anchored at the head of [s]. *)
Definition match_c_number (s : string) : option string :=
  match s with
  | String "/" (String c t) =>
      if Ascii.eqb (lower_char c) "c" then
        match nonempty_digits t with
        | Some (d, _) => Some d
        | None => None
        end
      else None
  | _ => None
  end.

(** The sentinel returned when no pattern matches. *)
Definition NO_NUMBER : Z := 999999.

(** [int(match.group(1))] inside the [try] of the function: when [int]
    raises, the [except] clause returns the sentinel. *)
Definition group_number (d : string) : Z :=
  match int_of_digits d with
  | Some n => n
  | None => NO_NUMBER
  end.

(** [Scraper._extract_chapter_number] *)
Definition _extract_chapter_number (url : string) : Z :=
  match search match_chapter_dash url with
  | Some d => group_number d
  | None =>
      match search match_trailing_number url with
      | Some d => group_number d
      | None =>
          match search match_c_number url with
          | Some d => group_number d
          | None => NO_NUMBER
          end
      end
  end.

(** ** Sorting

    [sorted(xs, key=f)] and [list.sort(key=f)] are stable: elements with
    equal keys keep their input order. *)

Fixpoint insert_by {A} (key : A -> Z) (x : A) (l : list A) : list A :=
  match l with
  | [] => [x]
  | y :: l' => if key x <=? key y then x :: y :: l' else y :: insert_by key x l'
  end.

Definition sorted_by {A} (key : A -> Z) (l : list A) : list A :=
  foldr (insert_by key) [] l.

(** [l[start:stop]] for [0 <= start]; a negative [stop] counts from the
    end of the list. *)
Definition py_slice {A} (start stop : Z) (l : list A) : list A :=
  let n := Z.of_nat (length l) in
  let stop' := if stop <? 0 then Z.max 0 (n + stop) else Z.min stop n in
  firstn (Z.to_nat (stop' - start)) (skipn (Z.to_nat start) l).

(** ** Chapter links *)

(** The loop that every branch of [_get_chapter_links_from_html] runs over
    the anchors it selected:
    [if keep(href): full = urljoin(base, href); if full not in links: links.append(full)]. *)
Definition add_link (keep : string -> bool) (urljoin : string -> string)
    (links : list string) (href : string) : list string :=
  if keep href then
    let full := urljoin href in
    if bool_decide (full ∈ links) then links else links ++ [full]
  else links.

Definition collect_links (keep : string -> bool) (urljoin : string -> string)
    (hrefs : list string) : list string :=
  foldl (add_link keep urljoin) [] hrefs.


(** The key of the sort in step 3 of [scrape]:
    [lambda x: self._extract_chapter_number(x) or 0]. *)
Definition link_key (x : string) : Z := py_or (_extract_chapter_number x) 0.


(** ** The size of the chapter pool *)

Definition protected_sites : list string :=
  ["novelbin"; "lightnovelworld"; "qidian"; "webnovel"]%string.

(** [self.parallel_workers] after step 2 of [scrape]: the branch for
    protected sites lowers it to at most 2; Ranobes takes its own branch. *)
Definition workers_after_links (url : string) (parallel_workers : Z) : Z :=
  if contains "ranobes" url then parallel_workers
  else if existsb (fun s => contains s url) protected_sites
       then Z.min parallel_workers 2
       else parallel_workers.

(** [chapter_workers], the [max_workers] of the chapter pool. *)
Definition chapter_workers (url : string) (parallel_workers : Z) : Z :=
  if contains "ranobes" url then 1 else workers_after_links url parallel_workers.

(** ** Records *)

(** A chapter dictionary.  The keys [_cached_at] and [_url] that
    [set_chapter] adds, like [_updated_at], [_user_id] and [_novel_url] of
    a progress record, are bookkeeping that the engine never reads; they
    are left out. *)
Record Chapter := mkChapter {
  ch_title : string;
  ch_content : string;
  chapter_num : Z;
  ch_url : option string
}.

Inductive Status := in_progress | partial | failed.

Record Progress := mkProgress {
  p_title : string;
  p_chapter_start : Z;
  p_chapter_end : option Z;
  completed_chapters : list string;
  failed_chapters : list string;
  status : Status;
  (** the key [error], which only the record of a failed job has *)
  p_error : option string
}.

(** The cache directory: [chapters/] and [progress/], by relative path. *)
Record Cache := mkCache {
  chapter_files : gmap (list string) Chapter;
  progress_files : gmap string Progress
}.

Definition empty_cache : Cache := mkCache ∅ ∅.

(** The value returned by [scrape]. *)
Record ScrapeResult := mkResult {
  r_title : string;
  r_chapters : list Chapter;
  r_error : option string;
  r_failed_chapters : nat
}.

(** ** More string methods *)

(** Whitespace in the sense of [str.strip] and [\s], below 256. *)
Definition is_space (c : ascii) : bool :=
  let n := code c in
  (((9 <=? n) && (n <=? 13)) || ((28 <=? n) && (n <=? 32))
   || (n =? 133) || (n =? 160))%N.

Fixpoint lstrip (s : string) : string :=
  match s with
  | String c t => if is_space c then lstrip t else s
  | EmptyString => EmptyString
  end.

Fixpoint rstrip (s : string) : string :=
  match s with
  | String c t =>
      let t' := rstrip t in
      if negb (truthy t') && is_space c then EmptyString else String c t'
  | EmptyString => EmptyString
  end.

Definition strip (s : string) : string := lstrip (rstrip s).

(** [raw.split('|', 1)[0]] *)
Fixpoint before_bar (s : string) : string :=
  match s with
  | String c t => if Ascii.eqb c "|" then EmptyString else String c (before_bar t)
  | EmptyString => EmptyString
  end.

(** ** The chapter cache and the progress store *)

Section Engine.

(** [NovelCache._url_hash]: the hexadecimal MD5 digest of the URL. *)
Variable _url_hash : string -> string.

(** The file of a chapter, relative to [chapters_dir]. *)
Definition chapter_file (chapter_url : string) (novel_url : option string)
    : list string :=
  match novel_url with
  | Some n =>
      if truthy n then [_url_hash n; _url_hash chapter_url +:+ ".json"]
      else [_url_hash chapter_url +:+ ".json"]
  | None => [_url_hash chapter_url +:+ ".json"]
  end.

(** [NovelCache.get_chapter] *)
Definition get_chapter (cache : Cache) (chapter_url : string)
    (novel_url : option string) : option Chapter :=
  chapter_files cache !! chapter_file chapter_url novel_url.

(** [NovelCache.set_chapter] *)
Definition set_chapter (cache : Cache) (chapter_url : string)
    (content : Chapter) (novel_url : option string) : Cache :=
  mkCache (<[chapter_file chapter_url novel_url := content]> (chapter_files cache))
          (progress_files cache).

(** A path that lies strictly inside the directory [d] of [chapters_dir]. *)
Definition inside (d : string) (p : list string) : Prop :=
  match p with
  | d' :: _ :: _ => d' = d
  | _ => False
  end.

Global Instance inside_dec d p : Decision (inside d p).
Proof. destruct p as [|d' [|f r]]; simpl; apply _. Defined.

(** [NovelCache.clear_novel_chapters]: [shutil.rmtree] of the novel's
    directory. *)
Definition clear_novel_chapters (cache : Cache) (novel_url : string) : Cache :=
  mkCache (filter (fun kv => ~ inside (_url_hash novel_url) kv.1) (chapter_files cache))
          (progress_files cache).

Definition progress_key (user_id novel_url : string) : string :=
  user_id +:+ "_" +:+ _url_hash novel_url.

(** The file of a progress record is [progress_dir / f"{key}.json"].  The
    digest is hexadecimal, so only the user id can bring a path separator
    into the key.  With a user id without separator (and without the
    character 0, which [open] refuses) the key names a file of the
    progress directory itself.  With a separator it names a file of
    another directory: as the progress directory has no directory below
    it, [open] raises, which the [except] clause of
    [save_download_progress] catches, and [exists()] is false.  No key is
    followed through the parent directory: a user id that walks out of the
    progress directory by [..] lies outside this model, as do the limits
    of the file system on the length of a name. *)
Definition file_name (user_id : string) : bool :=
  negb (contains "/" user_id) && negb (contains (String (ascii_of_N 0) "") user_id).

(** [NovelCache.save_download_progress] *)
Definition save_download_progress (cache : Cache) (user_id novel_url : string)
    (progress : Progress) : Cache :=
  if file_name user_id then
    mkCache (chapter_files cache)
            (<[progress_key user_id novel_url := progress]> (progress_files cache))
  else cache.

(** [NovelCache.get_download_progress] with a novel URL, as [scrape] calls
    it. *)
Definition get_download_progress (cache : Cache) (user_id novel_url : string)
    : option Progress :=
  if file_name user_id then
    progress_files cache !! progress_key user_id novel_url
  else None.

(** [NovelCache.clear_download_progress] with a novel URL. *)
Definition clear_download_progress (cache : Cache) (user_id novel_url : string)
    : Cache :=
  if file_name user_id then
    mkCache (chapter_files cache)
            (delete (progress_key user_id novel_url) (progress_files cache))
  else cache.

(** ** [Scraper._normalize_chapters] *)

Definition is_prologue (ch : Chapter) : bool :=
  startswith "prologue" (lower (ch_title ch)).

Fixpoint find_index {A} (p : A -> bool) (l : list A) : option nat :=
  match l with
  | [] => None
  | x :: t => if p x then Some O else S <$> find_index p t
  end.

Definition clean_title (raw : string) : string :=
  if truthy raw then strip (before_bar raw) else ""%string.

Definition final_title (is_ranobes : bool) (idx : Z) (ch : Chapter) : string :=
  let title_raw := ch_title ch in
  if is_ranobes then
    let base := clean_title title_raw in
    if startswith "chapter" (lower base) then base
    else if truthy base then "Chapter " +:+ pretty idx +:+ " | " +:+ base
    else "Chapter " +:+ pretty idx
  else if truthy title_raw then title_raw
  else "Chapter " +:+ pretty idx.

(** [for idx, ch in enumerate(remaining, start=idx)] *)
Fixpoint renumber (is_ranobes : bool) (idx : Z) (remaining : list Chapter)
    : list Chapter :=
  match remaining with
  | [] => []
  | ch :: t =>
      mkChapter (final_title is_ranobes idx ch) (ch_content ch) idx (ch_url ch)
      :: renumber is_ranobes (idx + 1) t
  end.

Definition truthy_end (chapter_end : option Z) : option Z :=
  match chapter_end with
  | Some e => if e =? 0 then None else Some e
  | None => None
  end.

Definition _normalize_chapters (chapters : list Chapter) (include_prologue : bool)
    (chapter_start : Z) (chapter_end : option Z) (url : string) : list Chapter :=
  match chapters with
  | [] => chapters
  | first :: others =>
      let is_ranobes := contains "ranobes" url in
      let '(prologue_chapter, remaining) :=
        if include_prologue then
          match find_index is_prologue chapters with
          | Some i => (chapters !! i, delete i chapters)
          | None => (Some first, others)
          end
        else (None, chapters) in
      let remaining :=
        match truthy_end chapter_end with
        | Some e => py_slice 0 (e - chapter_start + 1) remaining
        | None => remaining
        end in
      let main_start_num := if include_prologue then 1 else chapter_start in
      let normalized := renumber is_ranobes main_start_num remaining in
      match prologue_chapter with
      | Some p =>
          mkChapter "Prologue" (ch_content p) 0 (ch_url p) :: normalized
      | None => normalized
      end
  end.

(** ** The download coordinator: [Scraper.scrape] from step 3 on

    Steps 1 and 2 (metadata and link collection) talk to the network; their
    outcome, a title and the collected links, is an input here.  The pool
    of workers is represented by what the loop over
    [as_completed(future_to_url)] observes: the order in which the futures
    complete and the value each one returns ([_download_chapter] catches
    every exception, so a future never raises). *)

Record Job := mkJob {
  url : string;
  chapter_start : Z;
  chapter_end : option Z;
  user_id : option string;
  title : string;
  chapter_links : list string;
  parallel_workers : Z;
  (** [self.cancel_check]; the argument is the number of earlier polls *)
  cancel_check : option (nat -> bool);
  (** the order in which the submitted futures complete *)
  as_completed : list (string * Z) -> list (string * Z);
  (** [future.result()] of [_download_chapter(link_url, chapter_num, url)] *)
  download : string -> Z -> option Chapter
}.


(** The value of a future. *)
Definition result_of (j : Job) (fut : string * Z) : option Chapter :=
  download j fut.1 fut.2.

(** [if user_id and CACHE_AVAILABLE] *)
Definition active_user (j : Job) : option string :=
  match user_id j with
  | Some u => if truthy u then Some u else None
  | None => None
  end.

Definition include_prologue (j : Job) : bool :=
  contains "ranobes" (url j) && (chapter_start j =? 1).

Definition sorted_links (j : Job) : list string :=
  sorted_by link_key (chapter_links j).

(** [target_links = chapter_links[start_idx:end_idx]] *)
Definition range_links (j : Job) : list string :=
  let links := sorted_links j in
  let n := Z.of_nat (length links) in
  let start_idx := Z.max 0 (chapter_start j - 1) in
  let end_idx :=
    match truthy_end (chapter_end j) with
    | Some e => if include_prologue j then Z.min n (e + 1) else e
    | None => n
    end in
  py_slice start_idx end_idx links.

(** [resume_info], read before step 1. *)
Definition resume_info (j : Job) (cache : Cache) : option Progress :=
  match active_user j with
  | Some u => get_download_progress cache u (url j)
  | None => None
  end.

(** The chapters taken from the cache when resuming, with their URLs. *)
Definition preloaded (j : Job) (cache : Cache) : list (string * Chapter) :=
  match resume_info j cache with
  | Some _ =>
      omap (fun link_url => pair link_url <$> get_chapter cache link_url (Some (url j)))
           (range_links j)
  | None => []
  end.

(** [target_links] after the cached chapters were removed. *)
Definition target_links (j : Job) (cache : Cache) : list string :=
  let done := (preloaded j cache).*1 in
  match done with
  | [] => range_links j
  | _ => filter (fun u => u ∉ done) (range_links j)
  end.

(** The futures submitted to the pool: URL and chapter number. *)
Definition dispatched (j : Job) (cache : Cache) : list (string * Z) :=
  imap (fun i link_url =>
          (link_url, Z.of_nat i + chapter_start j
                     + Z.of_nat (length (preloaded j cache))))
       (target_links j cache).

Definition progress_record (j : Job) (completed failed : list string)
    (st : Status) : Progress :=
  mkProgress (title j) (chapter_start j)
    (Some match truthy_end (chapter_end j) with
          | Some e => e
          | None => Z.of_nat (length (sorted_links j))
          end)
    completed failed st None.

Definition save_progress (j : Job) (completed failed : list string)
    (st : Status) (cache : Cache) : Cache :=
  match active_user j with
  | Some u => save_download_progress cache u (url j) (progress_record j completed failed st)
  | None => cache
  end.

(** The variables of the collection loop. *)
Record Collected := mkCollected {
  chapters : list Chapter;
  completed_urls : list string;
  failed_urls : list string;
  completed : nat;
  store : Cache
}.

Definition poll (j : Job) (k : nat) : bool :=
  match cancel_check j with
  | Some f => f k
  | None => false
  end.

(** One iteration of the loop for a future that is not cancelled. *)
Definition record_result (j : Job) (fut : string * Z) (st : Collected) : Collected :=
  let '(chapter_url, n) := fut in
  let st1 :=
    match download j chapter_url n with
    | Some chapter =>
        mkCollected (chapters st ++ [chapter]) (completed_urls st ++ [chapter_url])
                    (failed_urls st) (S (completed st)) (store st)
    | None =>
        mkCollected (chapters st) (completed_urls st)
                    (failed_urls st ++ [chapter_url]) (S (completed st)) (store st)
    end in
  if (completed st1 mod 10 =? 0)%nat then
    mkCollected (chapters st1) (completed_urls st1) (failed_urls st1) (completed st1)
      (save_progress j (completed_urls st1) (failed_urls st1) in_progress (store st1))
  else st1.

(** [for future in as_completed(future_to_url)]: [k] counts the polls of
    [cancel_check]; on cancellation the progress is saved as partial and
    the loop is left. *)
Fixpoint collect (j : Job) (k : nat) (futs : list (string * Z)) (st : Collected)
    : Collected :=
  match futs with
  | [] => st
  | fut :: rest =>
      if poll j k then
        mkCollected (chapters st) (completed_urls st) (failed_urls st) (completed st)
          (save_progress j (completed_urls st) (failed_urls st) partial (store st))
      else collect j (S k) rest (record_result j fut st)
  end.

(** [f'No chapters found in range {chapter_start}-{chapter_end}'] *)
Definition range_error (j : Job) : string :=
  "No chapters found in range " +:+ pretty (chapter_start j) +:+ "-" +:+
  match chapter_end j with
  | Some e => pretty e
  | None => "None"
  end.

(** What a call of [scrape] leaves behind. *)
Record Run := mkRun {
  result : ScrapeResult;
  cache_after : Cache;
  workers : option Z;
  submitted : list (string * Z)
}.

(** The state in which the collection loop ends: it starts from the
    chapters taken from the cache, after the initial progress was saved. *)
Definition collected (j : Job) (cache : Cache) : Collected :=
  let pre := preloaded j cache in
  collect j 0 (as_completed j (dispatched j cache))
    (mkCollected pre.*2 pre.*1 [] (length pre)
       (save_progress j pre.*1 [] in_progress cache)).

(** [str(e)] for the [ValueError] that [ThreadPoolExecutor] raises when
    [max_workers] is not positive. *)
Definition pool_error : string := "max_workers must be greater than 0".

(** The [except] clause of [scrape], reached from the creation of the
    pool: the chapters taken from the cache and the initial record are
    there, nothing was submitted; the record is saved as failed and the
    result names no title and no chapter. *)
Definition pool_failure (j : Job) (cache : Cache) : Run :=
  let pre := preloaded j cache in
  let cache1 := save_progress j pre.*1 [] in_progress cache in
  let cache2 :=
    match active_user j with
    | Some u =>
        save_download_progress cache1 u (url j)
          (mkProgress (title j) (chapter_start j) (chapter_end j) pre.*1 [] failed
             (Some pool_error))
    | None => cache1
    end in
  mkRun (mkResult "Unknown" [] (Some pool_error) 0)
        cache2 (Some (chapter_workers (url j) (parallel_workers j))) [].

(** The body of [with ThreadPoolExecutor(...)] and what follows it:
    submit, collect, sort, normalise, settle the progress record. *)
Definition with_pool (j : Job) (cache : Cache) : Run :=
  let futs := dispatched j cache in
  let st := collected j cache in
  let sorted := sorted_by chapter_num (chapters st) in
  let out := _normalize_chapters sorted (include_prologue j)
               (chapter_start j) (chapter_end j) (url j) in
  let cache2 :=
    match active_user j with
    | Some u =>
        match failed_urls st with
        | [] => clear_download_progress (store st) u (url j)
        | _ => save_progress j (completed_urls st) (failed_urls st) partial (store st)
        end
    | None => store st
    end in
  mkRun (mkResult (title j) out None (length (failed_urls st)))
        cache2 (Some (chapter_workers (url j) (parallel_workers j))) futs.

(** Steps 4 and 5: resume, then the pool, which [ThreadPoolExecutor]
    refuses to create for a number of workers that is not positive. *)
Definition download_step (j : Job) (cache : Cache) : Run :=
  if 0 <? chapter_workers (url j) (parallel_workers j) then with_pool j cache
  else pool_failure j cache.

Definition scrape (j : Job) (cache : Cache) : Run :=
  match chapter_links j with
  | [] => mkRun (mkResult (title j) [] (Some "No chapter links found"%string) 0)
                cache None []
  | _ =>
      match range_links j with
      | [] => mkRun (mkResult (title j) [] (Some (range_error j)) 0) cache None []
      | _ => download_step j cache
      end
  end.

End Engine.

(** ** The fetch ladder: [Scraper._get_with_retry] *)

Record Response := mkResponse {
  status_code : Z;
  text : string
}.

(** What [session.get] does: it answers, or it raises (timeout, connection
    error or another exception). *)
Inductive Outcome :=
  | Answer (resp : Response)
  | Raised.

(** The session a request goes through: [base_session], or one made by
    [_get_fresh_session(rotate_ip=True)] for this request. *)
Inductive Session := Base | Fresh.

(** The network as one call of [_get_with_retry] sees it. *)
Record Net := mkNet {
  attempt_get : Session -> nat -> Outcome;
  mirror_get : Session -> string -> Outcome
}.

Definition SITE_MIRRORS : list (string * list string) :=
  [("novelbin", ["novelbin.me"; "novelbin.com"; "novelbin.cfd"; "novelbin.net";
                 "novelbin.org"; "novelbin.cc"; "novelbin.tv"]);
   ("lightnovelworld", ["lightnovelworld.com"; "lightnovelworld.co"; "lnworld.com"]);
   ("freewebnovel", ["freewebnovel.com"; "freewebnovel.me"; "freewebnovel.net"]);
   ("novelfire", ["novelfire.net"; "novelfire.com"; "novelfire.org"])]%string.

Definition heavy_security_sites : list string :=
  ["ranobes"; "novelbin"; "lightnovelworld"]%string.

(** The Cloudflare test on the lower-cased sample of the body. *)
Definition challenge_page (content_sample : string) : bool :=
  contains "just a moment" content_sample
  || contains "checking your browser" content_sample
  || (contains "cloudflare" content_sample && contains "challenge" content_sample).

(** The bot-block test on the same sample. *)
Definition bot_block_page (content_sample : string) : bool :=
  contains "dear visitor" content_sample
  || contains "abnormal activity" content_sample.

Inductive Verdict := Success | Blocked | Rejected.

(** The classification of an answer inside the retry loop. *)
Definition classify (resp : Response) : Verdict :=
  if status_code resp =? 200 then
    let content_sample := lower (take 800 (text resp)) in
    if challenge_page content_sample || bot_block_page content_sample
    then Blocked else Success
  else if (status_code resp =? 403) || (status_code resp =? 503)
          || (status_code resp =? 429)
  then Blocked else Rejected.

Section Ladder.

Variable net : Net.
Variable rotate_per_attempt rotate_on_block heavy_security : bool.

Definition session_for (last_blocked : bool) : Session :=
  if rotate_per_attempt && heavy_security then Fresh
  else if rotate_on_block && heavy_security && last_blocked then Fresh
  else Base.

(** [for attempt in range(retries)], from [attempt] on, with [left]
    iterations to go. *)
Fixpoint attempts (left attempt : nat) (last_blocked : bool) : option Response :=
  match left with
  | O => None
  | S left' =>
      match attempt_get net (session_for last_blocked) attempt with
      | Answer resp =>
          match classify resp with
          | Success => Some resp
          | Blocked => attempts left' (S attempt) true
          | Rejected => attempts left' (S attempt) false
          end
      | Raised => attempts left' (S attempt) true
      end
  end.

(** The test applied to the answer of a mirror. *)
Definition mirror_accepts (resp : Response) : bool :=
  (status_code resp =? 200)
  && negb (contains "checking your browser" (lower (take 500 (text resp)))).

(** [for mirror_domain in SITE_MIRRORS[site_key]] *)
Fixpoint try_mirrors (url domain : string) (mirrors : list string) : option Response :=
  match mirrors with
  | [] => None
  | mirror_domain :: rest =>
      if contains mirror_domain url then try_mirrors url domain rest
      else
        match mirror_get net
                (if rotate_per_attempt && heavy_security then Fresh else Base)
                (replace domain mirror_domain url) with
        | Answer resp =>
            if mirror_accepts resp then Some resp else try_mirrors url domain rest
        | Raised => try_mirrors url domain rest
        end
  end.

(** [site_key]: the first key of [SITE_MIRRORS] found in the domain. *)
Definition site_mirrors (domain : string) : list string :=
  match List.find (fun kv => contains kv.1 domain) SITE_MIRRORS with
  | Some kv => kv.2
  | None => []
  end.

(** The retry loop, then the mirrors. *)
Definition ladder (url domain : string) (retries : nat) : option Response :=
  match attempts retries 0 false with
  | Some resp => Some resp
  | None => try_mirrors url domain (site_mirrors domain)
  end.

End Ladder.

(** [self.max_retries] *)
Definition max_retries : nat := 4.

(** [Scraper._get_with_retry]; [domain] is [urlparse(url).netloc.lower()]
    and [retries] is [max_retries if max_retries else self.max_retries]. *)
Definition _get_with_retry (net : Net) (url domain : string)
    (rotate_per_attempt rotate_on_block : bool) (retries : nat) : option Response :=
  ladder net rotate_per_attempt rotate_on_block
    (existsb (fun site => contains site domain) heavy_security_sites)
    url domain retries.

(** ** Titles and bodies of chapter pages *)

(** The longest prefix of [s] whose characters satisfy [p], and the rest. *)
Fixpoint span (p : ascii -> bool) (s : string) : string * string :=
  match s with
  | String c t =>
      if p c then let '(a, r) := span p t in (String c a, r)
      else (EmptyString, s)
  | EmptyString => (EmptyString, EmptyString)
  end.

Definition newline : ascii := ascii_of_N 10.

(** The pattern [Chapter\s*\d+] followed by the rest of the line, ignoring
    case, anchored at the head of [s]; the value is the text matched. *)
Definition match_chapter_title (s : string) : option string :=
  if startswith "chapter" (lower (take 7 s)) then
    let '(ws, r1) := span is_space (drop 7 s) in
    let '(d, r2) := span is_digit r1 in
    if truthy d then
      let '(line, _) := span (fun c => negb (Ascii.eqb c newline)) r2 in
      Some (take 7 s +:+ ws +:+ d +:+ line)
    else None
  else None.

(** [/novel/([^/?#]+)] anchored at the head of [s]; the value is the group. *)
Definition match_novel_slug (s : string) : option string :=
  if startswith "/novel/" s then
    let '(g, _) :=
      span (fun c => negb (Ascii.eqb c "/" || Ascii.eqb c "?" || Ascii.eqb c "#"))
           (drop 7 s) in
    if truthy g then Some g else None
  else None.

(** [s.replace('-', ' ')] *)
Fixpoint dashes_to_spaces (s : string) : string :=
  match s with
  | String c t => String (if Ascii.eqb c "-" then " "%char else c) (dashes_to_spaces t)
  | EmptyString => EmptyString
  end.

(** [s.lstrip(' -:')] (the en dash of the source lies above 255). *)
Fixpoint lstrip_punct (s : string) : string :=
  match s with
  | String c t =>
      if Ascii.eqb c " " || Ascii.eqb c "-" || Ascii.eqb c ":" then lstrip_punct t
      else s
  | EmptyString => EmptyString
  end.

(** [novel_slug] and [novel_base_path] of [_download_chapter]. *)
Definition novel_slug_group (novel_url : option string) : option string :=
  match novel_url with
  | Some n => if truthy n then search match_novel_slug n else None
  | None => None
  end.

Definition novel_slug (novel_url : option string) : option string :=
  (fun g => lower (dashes_to_spaces g)) <$> novel_slug_group novel_url.

Definition novel_base_path (novel_url : option string) : option string :=
  (fun g => "/novel/" +:+ lower g) <$> novel_slug_group novel_url.

(** The title of the chapter, from the text of the first [h1]. *)
Definition chapter_title (h1 : option string) (chapter_num : Z)
    (novel_url : option string) : string :=
  let title_raw :=
    match h1 with
    | Some t => t
    | None => "Chapter " +:+ pretty chapter_num
    end in
  let title_candidate :=
    match search match_chapter_title title_raw with
    | Some m => strip m
    | None => strip title_raw
    end in
  match novel_slug novel_url with
  | Some slug =>
      if startswith slug (lower title_candidate) then
        let trimmed := lstrip_punct (drop (len slug) title_candidate) in
        if truthy trimmed then trimmed else title_candidate
      else title_candidate
  | None => title_candidate
  end.

(** Line boundaries of [str.splitlines] below 256. *)
Definition is_linebreak (c : ascii) : bool :=
  let n := code c in
  (((10 <=? n) && (n <=? 13)) || ((28 <=? n) && (n <=? 30)) || (n =? 133))%N.

(** [s.splitlines()]; [cur] is the line being read and [after_cr] tells
    that the previous character was a carriage return. *)
Fixpoint splitlines_from (s cur : string) (after_cr : bool) : list string :=
  match s with
  | EmptyString => if truthy cur then [cur] else []
  | String c t =>
      if after_cr && Ascii.eqb c newline then splitlines_from t cur false
      else if is_linebreak c then
        cur :: splitlines_from t EmptyString (N.eqb (code c) 13)
      else splitlines_from t (cur +:+ String c EmptyString) false
  end.

Definition splitlines (s : string) : list string :=
  splitlines_from s EmptyString false.

(** ['\n'.join(lines)] *)
Fixpoint join_lines (lines : list string) : string :=
  match lines with
  | [] => EmptyString
  | [l] => l
  | l :: rest => l +:+ String newline (join_lines rest)
  end.

Fixpoint newlines (n : nat) : string :=
  match n with
  | O => EmptyString
  | S n' => String newline (newlines n')
  end.

(** [re.sub(r'\n{3,}', '\n\n', s)]; [run] counts the newlines just read. *)
Fixpoint squeeze_newlines (s : string) (run : nat) : string :=
  let flush := newlines (if (3 <=? run)%nat then 2 else run) in
  match s with
  | EmptyString => flush
  | String c t =>
      if Ascii.eqb c newline then squeeze_newlines t (S run)
      else flush +:+ String c (squeeze_newlines t O)
  end.

(** [content.replace('\xa0', ' ')] *)
Fixpoint nbsp_to_space (s : string) : string :=
  match s with
  | String c t =>
      String (if N.eqb (code c) 160 then " "%char else c) (nbsp_to_space t)
  | EmptyString => EmptyString
  end.

(** The first loop over the lines: strip, and drop repeated headings. *)
Definition keep_line (title : string) (slug : option string) (stripped : string) : bool :=
  negb (truthy stripped && truthy title
        && String.eqb (lower stripped) (lower title))
  && negb (match slug with
           | Some sl => startswith sl (lower stripped)
                        && contains "chapter" (lower stripped)
           | None => false
           end).

(** The second loop: collapse runs of blank lines. *)
Fixpoint collapse_blank (lines : list string) (last_blank : bool) : list string :=
  match lines with
  | [] => []
  | ln :: rest =>
      if truthy ln then lstrip ln :: collapse_blank rest false
      else if last_blank then collapse_blank rest true
      else EmptyString :: collapse_blank rest true
  end.

(** "Normalize content spacing and drop duplicate heading lines". *)
Definition normalize_content (title : string) (slug : option string)
    (content : string) : string :=
  if truthy content then
    let lines := splitlines (nbsp_to_space content) in
    let normalized := List.filter (keep_line title slug) (strip <$> lines) in
    squeeze_newlines (join_lines (collapse_blank normalized false)) O
  else content.

(** ** [Scraper._download_chapter] *)

(** What the function reads off a parsed page: [soup.get_text()], the
    string of [soup.title], the text of the first [h1], and the body that
    the branch for the site extracts. *)
Record Page := mkPage {
  page_text : string;
  page_title : option string;
  page_h1 : option string;
  page_body : string
}.

(** The outside world during one download: the result of
    [_fetch_with_flaresolverr], the network during the first and the
    second call of [_get_with_retry], and the HTML that the headless
    browser returns ([None] when it raises). *)
Record Web := mkWeb {
  flaresolverr_enabled : bool;
  flaresolverr_html : option string;
  first_net : Net;
  use_playwright : bool;
  playwright_html : option string;
  retry_net : Net
}.

Section Download.

Variable _url_hash : string -> string.
(** [urlparse(url).netloc] and [urlparse(url).path] *)
Variable urlparse_netloc urlparse_path : string -> string.
(** [BeautifulSoup(html, 'html.parser')], observed as a [Page] *)
Variable parse : string -> Page.

Definition domain_of (url : string) : string := lower (urlparse_netloc url).

(** The cache check at the head of the function. *)
Definition valid_cached (cached : Chapter) : bool :=
  truthy (ch_content cached)
  && (200 <? len (ch_content cached))%nat
  && negb (contains "Rate limited" (ch_content cached)).

(** The fetch: FlareSolverr for Ranobes, the ladder, the browser. *)
Definition fetch_soup (w : Web) (url : string) : option Page :=
  let rotate_ranobes := contains "ranobes" url in
  let soup0 :=
    if contains "ranobes" url && flaresolverr_enabled w then
      match flaresolverr_html w with
      | Some html => if truthy html then Some (parse html) else None
      | None => None
      end
    else None in
  let soup1 :=
    match soup0 with
    | Some p => Some p
    | None =>
        match _get_with_retry (first_net w) url (domain_of url)
                rotate_ranobes rotate_ranobes max_retries with
        | Some resp => Some (parse (text resp))
        | None => None
        end
    end in
  match soup1 with
  | Some p => Some p
  | None =>
      if use_playwright w && (contains "novelbin" url || contains "ranobes" url) then
        match playwright_html w with
        | Some html =>
            if truthy html && negb (contains "Cloudflare" html)
               && negb (contains "checking your browser" (lower html))
            then Some (parse html) else None
        | None => None
        end
      else None
  end.

(** The test for an anti-bot page on a parsed page. *)
Definition rate_limited (p : Page) : bool :=
  let text500 := lower (take 500 (page_text p)) in
  let title := match page_title p with Some t => lower t | None => ""%string end in
  contains "abnormal activity" text500 || contains "detected abnormal" text500
  || contains "dear visitor" text500 || contains "just a moment" title
  || contains "just a moment" text500.

(** The test applied to the page fetched again. *)
Definition still_rate_limited (p : Page) : bool :=
  let text500 := lower (take 500 (page_text p)) in
  contains "abnormal activity" text500 || contains "dear visitor" text500.

(** The page from which the chapter is read, after the anti-bot check. *)
Inductive Checked :=
  | Usable (p : Page)
  | StillLimited.

Definition check_page (w : Web) (url : string) (p : Page) : Checked :=
  if rate_limited p then
    let rotate_ranobes := contains "ranobes" url in
    match _get_with_retry (retry_net w) url (domain_of url)
            rotate_ranobes rotate_ranobes max_retries with
    | Some resp =>
        let p' := parse (text resp) in
        if still_rate_limited p' then StillLimited else Usable p'
    | None => StillLimited
    end
  else Usable p.

(** The chapter returned when the page stays rate limited. *)
Definition placeholder (chapter_num : Z) : Chapter :=
  mkChapter ("Chapter " +:+ pretty chapter_num)
            "[Rate limited - please try again later]" chapter_num None.

(** [title_num] and [url_num] *)
Definition title_number (title : string) : option Z :=
  if truthy title then Some (_extract_chapter_number title) else None.

(** [if expected_num and n and n != expected_num] *)
Definition disagrees (expected_num : Z) (n : option Z) : bool :=
  match n with
  | Some n' => negb (expected_num =? 0) && negb (n' =? 0) && negb (n' =? expected_num)
  | None => false
  end.

Definition number_mismatch (expected_num : Z) (title url : string) : bool :=
  disagrees expected_num (title_number title)
  || disagrees expected_num (Some (_extract_chapter_number url)).

Definition slug_path_mismatch (url : string) (novel_url : option string) : bool :=
  match novel_base_path novel_url with
  | Some base =>
      contains "novelbuddy" url && negb (startswith base (lower (urlparse_path url)))
  | None => false
  end.

(** The condition under which the chapter is cached. *)
Definition cacheable (content : string) : bool :=
  truthy content && (200 <? len content)%nat
  && negb (contains "Rate limited" content)
  && negb (contains "abnormal activity" (lower content)).

(** The part of the function that follows the anti-bot check. *)
Definition read_chapter (url : string) (chapter_num : Z) (novel_url : option string)
    (p : Page) (cache : Cache) : option Chapter * Cache :=
  let title := chapter_title (page_h1 p) chapter_num novel_url in
  let content := normalize_content title (novel_slug novel_url) (page_body p) in
  if (number_mismatch chapter_num title url || slug_path_mismatch url novel_url)
     && contains "novelbuddy" url
  then (None, cache)
  else
    let chapter_data := mkChapter title content chapter_num (Some url) in
    (Some chapter_data,
     if cacheable content then set_chapter _url_hash cache url chapter_data novel_url
     else cache).

(** The function on a chapter that is not served from the cache. *)
Definition download_fresh (w : Web) (url : string) (chapter_num : Z)
    (novel_url : option string) (cache : Cache) : option Chapter * Cache :=
  match fetch_soup w url with
  | None => (None, cache)
  | Some p =>
      match check_page w url p with
      | StillLimited => (Some (placeholder chapter_num), cache)
      | Usable p' => read_chapter url chapter_num novel_url p' cache
      end
  end.

Definition _download_chapter (w : Web) (url : string) (chapter_num : Z)
    (novel_url : option string) (cache : Cache) : option Chapter * Cache :=
  match get_chapter _url_hash cache url novel_url with
  | Some cached =>
      if valid_cached cached then (Some cached, cache)
      else download_fresh w url chapter_num novel_url cache
  | None => download_fresh w url chapter_num novel_url cache
  end.

End Download.

(** A stand-in for [urlparse] on URLs of the shape [scheme://host/path],
    used by the examples. *)
Fixpoint after_scheme (s : string) : string :=
  match s with
  | String c t => if startswith "://" s then drop 3 s else after_scheme t
  | EmptyString => EmptyString
  end.

Definition simple_netloc (u : string) : string :=
  (span (fun c => negb (Ascii.eqb c "/")) (after_scheme u)).1.

Definition simple_path (u : string) : string :=
  (span (fun c => negb (Ascii.eqb c "?" || Ascii.eqb c "#"))
        (span (fun c => negb (Ascii.eqb c "/")) (after_scheme u)).2).1.

(** [s * n] *)
Fixpoint repeat_string (s : string) (n : nat) : string :=
  match n with
  | O => EmptyString
  | S n' => s +:+ repeat_string s n'
  end.

(** ** Inputs of the examples *)

(** A network on which every request gets the answer [r] and no mirror
    responds. *)
Definition answering (r : Response) : Net :=
  mkNet (fun _ _ => Answer r) (fun _ _ => Raised).

(** A network on which every request is refused with [status], except
    that every mirror gets the answer [r]. *)
Definition mirrored (status : Z) (r : Response) : Net :=
  mkNet (fun _ _ => Answer (mkResponse status "")) (fun _ _ => Answer r).

(** No FlareSolverr, no browser, and the answer [r] to every request. *)
Definition plain_web (r : Response) : Web :=
  mkWeb false None (answering r) false None (answering r).

(** A parser that finds the heading [h1] and the body [body] in every
    document. *)
Definition page_with (h1 body : string) (html : string) : Page :=
  mkPage body None (Some h1) body.

(** The orders that a sort by [key] establishes. *)
Definition key_le {A} (key : A -> Z) (x y : A) : Prop := key x <= key y.

(** A string of decimal digits. *)
Fixpoint all_digits (s : string) : bool :=
  match s with
  | EmptyString => true
  | String c t => is_digit c && all_digits t
  end.

(** A string that does not begin with a decimal digit. *)
Definition no_leading_digit (s : string) : bool :=
  match s with
  | EmptyString => true
  | String c _ => negb (is_digit c)
  end.

(** ** Cache entries with a time to live *)

(** [NovelCache.get_uncached_chapters] *)
Definition get_uncached_chapters (_url_hash : string -> string) (cache : Cache)
    (chapter_urls : list string) (novel_url : option string) : list string :=
  filter (fun url => get_chapter _url_hash cache url novel_url = None) chapter_urls.

(** The times to live, in seconds; [None] is "never expires". *)
Definition SEARCH_CACHE_TTL : option Z := Some 3600.
Definition NOVEL_INFO_TTL : option Z := Some 86400.
Definition CHAPTER_TTL : option Z := None.

(** [source or 'all'] *)
Definition source_or_all (source : option string) : string :=
  match source with
  | Some s => if truthy s then s else "all"
  | None => "all"
  end.

(** The names that [glob("*.json")] selects. *)
Fixpoint is_json (name : string) : bool :=
  String.eqb name ".json"
  || match name with
     | String _ t => is_json t
     | EmptyString => false
     end.

Section Expiry.

Variable _url_hash : string -> string.

(** Readings of the clock and modification times of files;
    [exceeds now mtime ttl] is the test [now - mtime > ttl].  A directory
    maps the name of a file to its modification time and its content. *)
Variable Stamp : Type.
Variable exceeds : Stamp -> Stamp -> Z -> bool.

(** [NovelCache._is_expired]; [cache_file] is the file, if it exists, and
    [now] the reading of the clock. *)
Definition _is_expired {V} (cache_file : option (Stamp * V)) (ttl : option Z)
    (now : Stamp) : bool :=
  match ttl with
  | None => false
  | Some t =>
      match cache_file with
      | None => true
      | Some (mtime, _) => exceeds now mtime t
      end
  end.

(** The file of a search, relative to [search_dir]. *)
Definition search_file (query : string) (source : option string) : string :=
  _url_hash (query +:+ "_" +:+ source_or_all source) +:+ ".json".

(** [NovelCache.get_search_results] *)
Definition get_search_results {R} (search_dir : gmap string (Stamp * list R)) (now : Stamp)
    (query : string) (source : option string) : option (list R) :=
  let cache_file := search_dir !! search_file query source in
  if _is_expired cache_file SEARCH_CACHE_TTL now then None
  else snd <$> cache_file.

(** [NovelCache.set_search_results]; [mtime] is the time of the write. *)
Definition set_search_results {R} (search_dir : gmap string (Stamp * list R))
    (mtime : Stamp) (query : string) (results : list R) (source : option string)
    : gmap string (Stamp * list R) :=
  <[search_file query source := (mtime, results)]> search_dir.

(** One loop of [clear_expired]; [now_at f] is the reading of the clock
    when the file [f] is tested. *)
Definition unlink_expired {V} (ttl : option Z) (now_at : string -> Stamp)
    (dir : gmap string (Stamp * V)) : gmap string (Stamp * V) :=
  filter (fun kv => ~ (is_json kv.1 = true
                       /\ _is_expired (Some kv.2) ttl (now_at kv.1) = true)) dir.

(** [NovelCache.clear_expired] on [search_dir] and [novels_dir]. *)
Definition clear_expired {R I} (now_search now_novels : string -> Stamp)
    (dirs : gmap string (Stamp * list R) * gmap string (Stamp * I))
    : gmap string (Stamp * list R) * gmap string (Stamp * I) :=
  (unlink_expired SEARCH_CACHE_TTL now_search dirs.1,
   unlink_expired NOVEL_INFO_TTL now_novels dirs.2).

End Expiry.

Arguments _is_expired {Stamp} exceeds {V} cache_file ttl now.
Arguments get_search_results _url_hash {Stamp} exceeds {R} search_dir now query source.
Arguments set_search_results _url_hash {Stamp R} search_dir mtime query results source.
Arguments unlink_expired {Stamp} exceeds {V} ttl now_at dir.
Arguments clear_expired {Stamp} exceeds {R I} now_search now_novels dirs.

(** A clock that counts seconds in whole numbers, for the examples. *)
Definition seconds_exceed (now mtime ttl : Z) : bool := ttl <? now - mtime.

(** ** The chapter range typed by the user ([bot.py]) *)

(** [all(p(c) for c in s)] *)
Fixpoint all_chars (p : ascii -> bool) (s : string) : bool :=
  match s with
  | EmptyString => true
  | String c t => p c && all_chars p t
  end.

(** [re.sub(r'[^\d]', '', s)] *)
Fixpoint digits_only (s : string) : string :=
  match s with
  | String c t => if is_digit c then String c (digits_only t) else digits_only t
  | EmptyString => EmptyString
  end.

(** [s.split(sep)] for a separator that is not empty; [cur] is the part
    being read and [skip] counts the characters of a separator still to
    pass. *)
Fixpoint split_from (sep s cur : string) (skip : nat) : list string :=
  match s with
  | EmptyString => [cur]
  | String c t =>
      match skip with
      | S k => split_from sep t cur k
      | O =>
          if startswith sep s then cur :: split_from sep t EmptyString (len sep - 1)
          else split_from sep t (cur +:+ String c EmptyString) O
      end
  end.

Definition split (sep s : string) : list string := split_from sep s EmptyString O.

(** [s.split()]: the parts between runs of whitespace. *)
Fixpoint split_whitespace_from (s cur : string) : list string :=
  match s with
  | EmptyString => if truthy cur then [cur] else []
  | String c t =>
      if is_space c then
        if truthy cur then cur :: split_whitespace_from t EmptyString
        else split_whitespace_from t EmptyString
      else split_whitespace_from t (cur +:+ String c EmptyString)
  end.

Definition split_whitespace (s : string) : list string :=
  split_whitespace_from s EmptyString.

(** [[p.strip() for p in parts if p.strip()]] *)
Definition stripped_parts (parts : list string) : list string :=
  List.filter truthy (strip <$> parts).

(** [(int(digits of a), int(digits of b))], or [None] on [ValueError]. *)
Definition int_pair (a b : string) : option (Z * option Z) :=
  match int_of_digits a, int_of_digits b with
  | Some start, Some end_ => Some (start, Some end_)
  | _, _ => None
  end.

(** The branches of [_parse_chapter_range]; [None] means that the branch
    does not return and the next one is tried. *)
Definition range_with_to (user_input : string) : option (Z * option Z) :=
  if contains " to " user_input then
    match stripped_parts (split " to " user_input) with
    | [a; b] =>
        match int_pair (digits_only a) (digits_only b) with
        | Some r => Some r
        | None => Some (1, None)
        end
    | _ => None
    end
  else None.

Definition range_with_space (user_input : string) : option (Z * option Z) :=
  if contains " " user_input && negb (contains "-" user_input) then
    match stripped_parts (split_whitespace user_input) with
    | [a; b] => int_pair (digits_only a) (digits_only b)
    | _ => None
    end
  else None.

(** The dashes other than the hyphen that the source looks for lie above
    code point 255. *)
Definition range_with_dash (user_input : string) : option (Z * option Z) :=
  if contains "-" user_input then
    match List.filter truthy (digits_only <$> stripped_parts (split "-" user_input)) with
    | [a; b] =>
        match int_pair a b with
        | Some r => Some r
        | None => Some (1, None)
        end
    | _ => None
    end
  else None.

Definition single_number (user_input : string) : option (Z * option Z) :=
  let digits := digits_only user_input in
  if truthy digits then
    match int_of_digits digits with
    | Some num => Some (1, Some num)
    | None => None
    end
  else None.

(** [_parse_chapter_range] *)
Definition _parse_chapter_range (user_input : string) : Z * option Z :=
  let user_input := lower (strip user_input) in
  if String.eqb user_input "all" || String.eqb user_input "all chapters" then (1, None)
  else
    match range_with_to user_input with
    | Some r => r
    | None =>
        match range_with_space user_input with
        | Some r => r
        | None =>
            match range_with_dash user_input with
            | Some r => r
            | None =>
                match single_number user_input with
                | Some r => r
                | None => (1, None)
                end
            end
        end
    end.

(** No negative chapter, and an open end only from chapter 1. *)
Definition range_ok (r : Z * option Z) : Prop :=
  0 <= r.1 /\ (forall e, r.2 = Some e -> 0 <= e) /\ (r.2 = None -> r.1 = 1).

(** ** Search results ([search_all_sites_with_choices]) *)

(** A result of a site search: [{'title': ..., 'url': ..., 'source': ...}];
    a key that is missing reads as the empty string. *)
Record Hit := mkHit {
  hit_title : string;
  hit_url : string;
  hit_source : string
}.

Definition generic_titles : list string :=
  ["novel"; "manga"; "read online"; ""; "untitled"]%string.

(** [list.sort(key=key, reverse=True)]: decreasing keys, and elements with
    equal keys in their original order. *)
Fixpoint insert_desc {A} (key : A -> Q) (x : A) (l : list A) : list A :=
  match l with
  | [] => [x]
  | y :: l' => if Qle_bool (key y) (key x) then x :: y :: l' else y :: insert_desc key x l'
  end.

Definition sorted_desc {A} (key : A -> Q) (l : list A) : list A :=
  foldr (insert_desc key) [] l.

(** The state of the loop that cleans and deduplicates the results; a
    result is kept with its [_relevance]. *)
Record Found := mkFound {
  unique_results : list (Hit * Q);
  seen_urls : gset string;
  seen_titles : gset string
}.

Section Search.

(** The text functions of the loop:
    [clean] is the title after the two substitutions and [strip];
    [words s] is [set(re.sub(r'[^a-z0-9\s]', '', s.lower()).split())];
    [normalized s] is [re.sub(r'[^a-z0-9]', '', s.lower())];
    [site url] is [urlparse(url).netloc.replace('www.', '').split('.')[0]]. *)
Variable clean : string -> string.
Variable words : string -> gset string.
Variable normalized : string -> string.
Variable site : string -> string.

(** [len(matching_words) / len(query_words) if query_words else 0] *)
Definition relevance (query_words matching_words : gset string) : Q :=
  if bool_decide (query_words = ∅) then 0%Q
  else (inject_Z (Z.of_nat (size matching_words))
        / inject_Z (Z.of_nat (size query_words)))%Q.

Definition title_key (clean_title url : string) : string :=
  normalized clean_title +:+ "_" +:+ site url.

(** The tests that a result passes before it is compared with the results
    already kept. *)
Definition relevant (query_words : gset string) (r : Hit) : bool :=
  truthy (hit_url r) && truthy (hit_title r)
  && negb (bool_decide (strip (lower (hit_title r)) ∈ generic_titles))
  && negb (bool_decide (query_words ∩ words (clean (hit_title r)) = ∅)).

(** The result as it is kept: with the cleaned title, unless that is
    empty. *)
Definition cleaned (r : Hit) : Hit :=
  let clean_title := clean (hit_title r) in
  mkHit (if truthy clean_title then clean_title else hit_title r) (hit_url r)
        (hit_source r).

(** One turn of the loop. *)
Definition consider (query_words : gset string) (st : Found) (r : Hit) : Found :=
  if relevant query_words r then
    if bool_decide (hit_url r ∈ seen_urls st) then st
    else
      let key := title_key (clean (hit_title r)) (hit_url r) in
      if bool_decide (key ∈ seen_titles st) then st
      else
        mkFound (unique_results st
                   ++ [(cleaned r,
                        relevance query_words
                          (query_words ∩ words (clean (hit_title r))))])
                ({[hit_url r]} ∪ seen_urls st)
                ({[key]} ∪ seen_titles st)
  else st.

(** The results with their relevance, after the sort. *)
Definition ranked (query : string) (results : list Hit) : list (Hit * Q) :=
  sorted_desc snd
    (unique_results (foldl (consider (words query)) (mkFound [] ∅ ∅) results)).

(** What [search_all_sites_with_choices] returns for the results that the
    sites gave. *)
Definition unique_sorted (query : string) (results : list Hit) : list Hit :=
  fst <$> ranked query results.

(** What holds of every result that is kept. *)
Definition kept_from (query_words : gset string) (results : list Hit) (h : Hit * Q) : Prop :=
  exists r, r ∈ results
    /\ relevant query_words r = true
    /\ h.1 = cleaned r
    /\ h.2 = relevance query_words (query_words ∩ words (clean (hit_title r))).

End Search.

(** [search_all_sites_with_choices] with the cache in use.  [results] is
    what the site searches give, in the order in which they complete; the
    sites are asked only when the cache has no result for the query.
    [now] is the reading of the clock at the lookup and [mtime] the time
    of the write. *)
Definition search_all_sites_with_choices (_url_hash : string -> string)
    {Stamp : Type} (exceeds : Stamp -> Stamp -> Z -> bool)
    (clean : string -> string) (words : string -> gset string)
    (normalized site : string -> string)
    (search_dir : gmap string (Stamp * list Hit)) (now mtime : Stamp)
    (query : string) (results : list Hit)
    : list Hit * gmap string (Stamp * list Hit) :=
  match get_search_results _url_hash exceeds search_dir now query None with
  | Some (r :: cached_results) => (r :: cached_results, search_dir)
  | _ =>
      let unique_results := unique_sorted clean words normalized site query results in
      (unique_results,
       match unique_results with
       | [] => search_dir
       | _ :: _ => set_search_results _url_hash search_dir mtime query unique_results None
       end)
  end.

(** * Properties *)

(** ** Sorting *)

Section SortedBy.

Context {A : Type} (key : A -> Z).

Lemma insert_by_perm x l : insert_by key x l ≡ₚ x :: l.
Proof.
  induction l as [|y l IH]; simpl; [done|].
  destruct (key x <=? key y); [done|].
  rewrite IH. apply Permutation_swap.
Qed.

Lemma sorted_by_perm l : sorted_by key l ≡ₚ l.
Proof.
  induction l as [|x l IH]; simpl; [done|].
  unfold sorted_by in *. simpl. rewrite insert_by_perm. by rewrite IH.
Qed.

Lemma insert_by_sorted x l :
  StronglySorted (key_le key) l -> StronglySorted (key_le key) (insert_by key x l).
Proof.
  induction l as [|y l IH]; simpl; intros Hs.
  - repeat constructor.
  - inversion Hs as [|? ? Hl Hy]; subst.
    destruct (key x <=? key y) eqn:E.
    + apply Z.leb_le in E. constructor; [done|].
      constructor; [done|].
      eapply Forall_impl; [exact Hy|]. unfold key_le. intros; lia.
    + apply Z.leb_gt in E. constructor; [by apply IH|].
      rewrite insert_by_perm. constructor; [unfold key_le; lia | done].
Qed.

Lemma sorted_by_sorted l : StronglySorted (key_le key) (sorted_by key l).
Proof.
  induction l as [|x l IH]; [constructor|].
  unfold sorted_by in *. simpl. by apply insert_by_sorted.
Qed.





End SortedBy.

(** ** Chapter numbers and the link list *)

Lemma py_or_0 a : py_or a 0 = a.
Proof. unfold py_or. destruct (a =? 0) eqn:E; [apply Z.eqb_eq in E; lia | done]. Qed.

Lemma link_key_number u : link_key u = _extract_chapter_number u.
Proof. apply py_or_0. Qed.


Section CollectLinks.

Variable urljoin : string -> string.







End CollectLinks.


Lemma group_number_short d :
  truthy d = true -> (len d <= int_max_str_digits)%nat -> group_number d = int d.
Proof.
  intros Ht Hl. unfold group_number, int_of_digits. rewrite Ht.
  by rewrite (proj2 (Nat.leb_le _ _) Hl).
Qed.










(** ** The coordinator *)

Lemma py_slice_nil {A} (start stop : Z) : py_slice start stop (@nil A) = [].
Proof. unfold py_slice. by rewrite skipn_nil, firstn_nil. Qed.

Lemma range_links_nil (j : Job) : chapter_links j = [] -> range_links j = [].
Proof.
  intros H. unfold range_links, sorted_links. rewrite H. apply py_slice_nil.
Qed.

(** A job with a non-empty selection reaches the download step. *)
Lemma scrape_download_step h (j : Job) (cache : Cache) :
  range_links j <> [] -> scrape h j cache = download_step h j cache.
Proof.
  intros Hr. unfold scrape.
  destruct (chapter_links j) eqn:Hl.
  - by rewrite range_links_nil in Hr.
  - by destruct (range_links j).
Qed.

Lemma download_step_workers h (j : Job) (cache : Cache) :
  workers (download_step h j cache)
  = Some (chapter_workers (url j) (parallel_workers j)).
Proof. unfold download_step. by destruct (0 <? _). Qed.

(** With a positive number of workers the pool is created. *)
Lemma download_step_pool h (j : Job) (cache : Cache) :
  0 < chapter_workers (url j) (parallel_workers j) ->
  download_step h j cache = with_pool h j cache.
Proof. intros Hw. unfold download_step. by rewrite (proj2 (Z.ltb_lt _ _) Hw). Qed.

Lemma download_step_no_pool h (j : Job) (cache : Cache) :
  chapter_workers (url j) (parallel_workers j) <= 0 ->
  download_step h j cache = pool_failure h j cache.
Proof. intros Hw. unfold download_step. by rewrite (proj2 (Z.ltb_ge _ _) Hw). Qed.

(** ** Worker count *)

(** C7 (as stated) fails: on a NovelBin URL a caller-supplied level of 5
    becomes 2, which is neither 1 nor the caller's level. *)
Lemma novelbin_workers_capped :
  workers (scrape id
             (mkJob "https://novelbin.com/b/some-book" 1 None None "T"
                ["https://novelbin.com/b/some-book/chapter-1"]%string 5 None id
                (fun _ _ => None))
             empty_cache) = Some 2.
Proof. vm_compute. reflexivity. Qed.

(** C7 (amended): once a job reaches the download step, the chapter pool
    has one worker on a Ranobes URL, at most two workers (the smaller of
    the caller's level and 2) on a URL that names a protected site
    (novelbin, lightnovelworld, qidian, webnovel), and the caller's level
    on every other URL. *)
Theorem worker_count_by_site (_url_hash : string -> string) (j : Job) (cache : Cache) :
  range_links j <> [] ->
  (contains "ranobes" (url j) = true ->
     workers (scrape _url_hash j cache) = Some 1)
  /\ (contains "ranobes" (url j) = false ->
      existsb (fun s => contains s (url j)) protected_sites = true ->
      workers (scrape _url_hash j cache) = Some (Z.min (parallel_workers j) 2))
  /\ (contains "ranobes" (url j) = false ->
      existsb (fun s => contains s (url j)) protected_sites = false ->
      workers (scrape _url_hash j cache) = Some (parallel_workers j)).
Proof.
  intros Hrange.
  rewrite scrape_download_step, download_step_workers by done.
  unfold chapter_workers, workers_after_links.
  split_and!; intros Hr; rewrite Hr; [done| |]; intros Hp; by rewrite Hp.
Qed.

Lemma worker_count_by_site_witness :
  workers (scrape id
             (mkJob "https://ranobes.net/novels/1-x.html" 1 None None "T"
                ["https://ranobes.net/read-1.html"]%string 25 None id
                (fun _ _ => None))
             empty_cache) = Some 1.
Proof.
  apply worker_count_by_site; [vm_compute; discriminate | vm_compute; reflexivity].
Defined.

(** ** The selected range *)



(** ** Cache keys *)

(** C9: the file of a chapter is the hash of its URL, inside the directory
    named by the hash of the novel URL when one is given; for two novel
    URLs with different hashes the files of one chapter URL differ, a
    chapter stored for one novel does not change what is read for the
    other, and [clear_novel_chapters] of one leaves every chapter of the
    other as it was. *)
Theorem chapter_keys_namespaced (_url_hash : string -> string) (cache : Cache)
    (chapter_url novel1 novel2 : string) :
  _url_hash novel1 <> _url_hash novel2 ->
  (truthy novel1 = true ->
   chapter_file _url_hash chapter_url (Some novel1)
   = [_url_hash novel1; _url_hash chapter_url +:+ ".json"])
  /\ chapter_file _url_hash chapter_url (Some novel1)
     <> chapter_file _url_hash chapter_url (Some novel2)
  /\ (forall c content,
        get_chapter _url_hash
          (set_chapter _url_hash cache chapter_url content (Some novel1)) c (Some novel2)
        = get_chapter _url_hash cache c (Some novel2))
  /\ (forall c,
        get_chapter _url_hash (clear_novel_chapters _url_hash cache novel1) c (Some novel2)
        = get_chapter _url_hash cache c (Some novel2)).
Proof.
  intros Hne.
  assert (Hfile : forall c c',
    chapter_file _url_hash c (Some novel1) <> chapter_file _url_hash c' (Some novel2)).
  { intros c c'. unfold chapter_file.
    destruct novel1, novel2; simpl; congruence. }
  split_and!.
  - intros Ht. unfold chapter_file. by rewrite Ht.
  - apply Hfile.
  - intros c content. unfold get_chapter, set_chapter. simpl.
    apply lookup_insert_ne. apply Hfile.
  - intros c. unfold get_chapter, clear_novel_chapters. simpl.
    apply option_eq. intros x. rewrite map_lookup_filter_Some. simpl.
    split; [by intros [? _]|]. intros Hx. split; [done|].
    unfold chapter_file. destruct (truthy novel2); simpl; [congruence | tauto].
Qed.

Lemma chapter_keys_namespaced_witness :
  get_chapter id
    (clear_novel_chapters id
       (set_chapter id
          (set_chapter id empty_cache "https://site.org/chapter-1"
             (mkChapter "Chapter 1" "text of a" 1 None) (Some "https://site.org/a"%string))
          "https://site.org/chapter-1"
          (mkChapter "Chapter 1" "text of b" 1 None) (Some "https://site.org/b"%string))
       "https://site.org/a")
    "https://site.org/chapter-1" (Some "https://site.org/b"%string)
  = Some (mkChapter "Chapter 1" "text of b" 1 None).
Proof.
  destruct (chapter_keys_namespaced id
              (set_chapter id
                 (set_chapter id empty_cache "https://site.org/chapter-1"
                    (mkChapter "Chapter 1" "text of a" 1 None)
                    (Some "https://site.org/a"%string))
                 "https://site.org/chapter-1"
                 (mkChapter "Chapter 1" "text of b" 1 None)
                 (Some "https://site.org/b"%string))
              "https://site.org/chapter-1" "https://site.org/a" "https://site.org/b")
    as (_ & _ & _ & H).
  - vm_compute. discriminate.
  - rewrite H. vm_compute. reflexivity.
Defined.

(** ** The collection loop *)

Section Collect.

Variable _url_hash : string -> string.
Variable j : Job.

Lemma record_result_chapters fut st :
  chapters (record_result _url_hash j fut st)
  = chapters st ++ option_list (result_of j fut).
Proof.
  unfold record_result, result_of. destruct fut as [u n]. simpl.
  destruct (download j u n); simpl;
    match goal with |- context [if ?b then _ else _] => destruct b end;
    simpl; by rewrite ?app_nil_r.
Qed.

Lemma record_result_failed fut st :
  failed_urls (record_result _url_hash j fut st)
  = failed_urls st ++ match result_of j fut with Some _ => [] | None => [fut.1] end.
Proof.
  unfold record_result, result_of. destruct fut as [u n]. simpl.
  destruct (download j u n); simpl;
    match goal with |- context [if ?b then _ else _] => destruct b end;
    simpl; by rewrite ?app_nil_r.
Qed.


(** When every download succeeds no URL is marked as failed, cancelled or
    not. *)
Lemma collect_no_failure k futs st :
  (forall fut, fut ∈ futs -> is_Some (result_of j fut)) ->
  failed_urls (collect _url_hash j k futs st) = failed_urls st.
Proof.
  revert k st. induction futs as [|fut futs IH]; intros k st Hok; simpl; [done|].
  destruct (poll j k); [done|].
  rewrite IH by (intros; apply Hok; by right).
  rewrite record_result_failed.
  destruct (Hok fut) as [c Hc]; [by left|]. rewrite Hc. by rewrite app_nil_r.
Qed.

End Collect.


Lemma collected_no_failure h (j : Job) (cache : Cache) :
  (forall fut, fut ∈ as_completed j (dispatched h j cache) -> is_Some (result_of j fut)) ->
  failed_urls (collected h j cache) = [].
Proof. intros Hok. unfold collected. by rewrite collect_no_failure. Qed.

(** ** The progress record at the end of a job *)

(** A job whose downloads all succeed ends without a progress record,
    whether or not it was cancelled. *)
Lemma no_failure_no_record h (j : Job) (cache : Cache) (u : string) :
  active_user j = Some u ->
  range_links j <> [] ->
  0 < chapter_workers (url j) (parallel_workers j) ->
  (forall fut, fut ∈ as_completed j (dispatched h j cache) -> is_Some (result_of j fut)) ->
  get_download_progress h (cache_after (scrape h j cache)) u (url j) = None.
Proof.
  intros Hu Hr Hw Hok. rewrite scrape_download_step, download_step_pool by done.
  unfold with_pool. cbn [cache_after]. rewrite Hu.
  rewrite collected_no_failure by done.
  unfold get_download_progress, clear_download_progress.
  destruct (file_name u); [|done]. simpl. apply lookup_delete_eq.
Qed.

(** C6 (the code at the failing input): two chapters, both downloads
    succeed, cancellation is signalled at the second poll.  The loop saves
    a record with status partial, no URL has failed, and at the end of the
    job the record is gone. *)
Theorem cancelled_job_drops_progress_record :
  let j := mkJob "https://site.org/book" 1 None (Some "user42"%string) "T"
             ["https://site.org/book/chapter-1"; "https://site.org/book/chapter-2"]%string
             5 (Some (fun k => (1 <=? k)%nat)) id
             (fun u n => Some (mkChapter "T" "text" n (Some u))) in
  status <$> get_download_progress id (store (collected id j empty_cache))
               "user42" "https://site.org/book" = Some partial
  /\ failed_urls (collected id j empty_cache) = []
  /\ completed_urls (collected id j empty_cache) = ["https://site.org/book/chapter-1"%string]
  /\ get_download_progress id (cache_after (scrape id j empty_cache))
       "user42" "https://site.org/book" = None.
Proof. vm_compute. auto. Qed.

(** ** The order of the final chapters *)




(** Futures numbered from [s] on return distinct numbers when every
    download returns the number it was given. *)
Lemma numbered_results_distinct (j : Job) (l : list string) (s : Z) :
  (forall u n c, download j u n = Some c -> chapter_num c = n) ->
  let nums := chapter_num <$> omap (result_of j)
                (imap (fun i u => (u, Z.of_nat i + s)) l) in
  Forall (fun n => s <= n) nums /\ NoDup nums.
Proof.
  intros Hdl. revert s. induction l as [|u l IH]; intros s; simpl.
  - split; constructor.
  - destruct (IH (s + 1)) as [Hge Hnd].
    assert (Hext : imap ((fun i u0 => (u0, Z.of_nat i + s)) ∘ S) l
                   = imap (fun i u0 => (u0, Z.of_nat i + (s + 1))) l).
    { apply imap_ext. intros i x _. simpl. f_equal. lia. }
    rewrite Hext.
    replace (result_of j (u, Z.of_nat 0 + s)) with (download j u s)
      by (unfold result_of; simpl; f_equal; lia).
    destruct (download j u s) as [c|] eqn:Hc.
    + apply Hdl in Hc. rewrite fmap_cons, Hc. split.
      * constructor; [lia|]. eapply Forall_impl; [exact Hge|]. simpl. intros; lia.
      * apply NoDup_cons. split; [|exact Hnd].
        intros Hin. rewrite Forall_forall in Hge. specialize (Hge _ Hin). lia.
    + split; [|exact Hnd].
      eapply Forall_impl; [exact Hge|]. simpl. intros; lia.
Qed.

(** Hence a job that takes nothing from the cache gathers chapters with
    distinct numbers. *)
Lemma fresh_job_numbers_distinct h (j : Job) (cache : Cache) :
  resume_info h j cache = None ->
  (forall u n c, download j u n = Some c -> chapter_num c = n) ->
  NoDup (chapter_num <$> ((preloaded h j cache).*2
                          ++ omap (result_of j) (dispatched h j cache))).
Proof.
  intros Hres Hdl. unfold dispatched, preloaded. rewrite Hres.
  cbn [fmap list_fmap app length].
  rewrite (imap_ext _ (fun i u => (u, Z.of_nat i + chapter_start j)));
    [apply (numbered_results_distinct j _ (chapter_start j) Hdl)|].
  intros i x _. simpl. f_equal. lia.
Qed.

(** ** Downloading one chapter *)

Section DownloadFacts.

Variable _url_hash : string -> string.
Variable urlparse_netloc urlparse_path : string -> string.
Variable parse : string -> Page.

(** What [read_chapter] can return: nothing, or a chapter that is stored
    exactly when its body passes the test. *)
Lemma read_chapter_cases url n novel p cache :
  read_chapter _url_hash urlparse_path url n novel p cache = (None, cache)
  \/ exists ch,
       read_chapter _url_hash urlparse_path url n novel p cache
       = (Some ch, if cacheable (ch_content ch)
                   then set_chapter _url_hash cache url ch novel else cache).
Proof.
  unfold read_chapter.
  destruct ((number_mismatch _ _ _ || slug_path_mismatch _ _ _) && _);
    [by left | right].
  by exists (mkChapter (chapter_title (page_h1 p) n novel)
               (normalize_content (chapter_title (page_h1 p) n novel)
                  (novel_slug novel) (page_body p))
               n (Some url)).
Qed.

(** The cases of a download. *)
Lemma download_cases w url n novel cache :
  _download_chapter _url_hash urlparse_netloc urlparse_path parse w url n novel cache = download_fresh _url_hash urlparse_netloc urlparse_path parse w url n novel cache
  \/ exists cached, _download_chapter _url_hash urlparse_netloc urlparse_path parse w url n novel cache = (Some cached, cache)
                    /\ valid_cached cached = true.
Proof.
  unfold _download_chapter.
  destruct (get_chapter _ _ _ _) as [cached|]; [|by left].
  destruct (valid_cached cached) eqn:Hv; [right; eauto | by left].
Qed.

Lemma fresh_cases w url n novel cache :
  download_fresh _url_hash urlparse_netloc urlparse_path parse w url n novel cache = (None, cache)
  \/ download_fresh _url_hash urlparse_netloc urlparse_path parse w url n novel cache = (Some (placeholder n), cache)
  \/ exists p, download_fresh _url_hash urlparse_netloc urlparse_path parse w url n novel cache = read_chapter _url_hash urlparse_path url n novel p cache
               /\ still_rate_limited p = false.
Proof.
  unfold download_fresh.
  destruct (fetch_soup _ _ _ _) as [p0|]; [|by left].
  unfold check_page. destruct (rate_limited p0) eqn:Hr.
  - destruct (_get_with_retry _ _ _ _ _ _) as [resp|]; [|by right; left].
    destruct (still_rate_limited (parse (text resp))) eqn:Hs;
      [by right; left | right; right; eauto].
  - right; right. exists p0. split; [done|].
    unfold rate_limited, still_rate_limited in *.
    repeat (apply orb_false_elim in Hr as [Hr ?]).
    apply orb_false_intro; done.
Qed.

(** The same cases, with the page that is read named: it is the page that
    [fetch_soup] returned, or the one that [check_page] fetched in its
    place. *)
Lemma fresh_page_cases w url n novel cache :
  download_fresh _url_hash urlparse_netloc urlparse_path parse w url n novel cache = (None, cache)
  \/ download_fresh _url_hash urlparse_netloc urlparse_path parse w url n novel cache = (Some (placeholder n), cache)
  \/ exists p0 p,
       fetch_soup urlparse_netloc parse w url = Some p0
       /\ check_page urlparse_netloc parse w url p0 = Usable p
       /\ download_fresh _url_hash urlparse_netloc urlparse_path parse w url n novel cache = read_chapter _url_hash urlparse_path url n novel p cache
       /\ still_rate_limited p = false.
Proof.
  unfold download_fresh.
  destruct (fetch_soup _ _ _ _) as [p0|]; [|by left].
  destruct (check_page _ _ _ _ _) as [p|] eqn:Hc; [|by right; left].
  right; right. exists p0, p. split_and!; [done..|].
  unfold check_page in Hc. destruct (rate_limited p0) eqn:Hr.
  - destruct (_get_with_retry _ _ _ _ _ _) as [resp|]; [|done].
    destruct (still_rate_limited (parse (text resp))) eqn:Hs; [done|].
    by injection Hc as <-.
  - injection Hc as <-.
    unfold rate_limited, still_rate_limited in *.
    repeat (apply orb_false_elim in Hr as [Hr ?]).
    apply orb_false_intro; done.
Qed.

Lemma cacheable_long content :
  cacheable content = true ->
  (200 < len content)%nat
  /\ contains "Rate limited" content = false
  /\ contains "abnormal activity" (lower content) = false.
Proof.
  unfold cacheable. rewrite !andb_true_iff, !negb_true_iff, Nat.ltb_lt. tauto.
Qed.

Lemma not_cacheable content :
  content = "Rate limited"%string \/ (len content <= 200)%nat ->
  cacheable content = false.
Proof.
  intros [->|Hlen]; [reflexivity|].
  unfold cacheable. apply Nat.ltb_ge in Hlen. rewrite Hlen.
  by rewrite andb_false_r.
Qed.

Lemma placeholder_not_cacheable n : cacheable (ch_content (placeholder n)) = false.
Proof. reflexivity. Qed.

(** A download changes the cache by at most one write, of the chapter
    it returns, and only when the body passes the test. *)
Lemma download_write w url n novel cache :
  exists res,
    (_download_chapter _url_hash urlparse_netloc urlparse_path parse w url n novel cache = (res, cache)
     /\ forall ch, res = Some ch ->
          valid_cached ch = true \/ cacheable (ch_content ch) = false)
    \/ exists ch, res = Some ch /\ cacheable (ch_content ch) = true
         /\ _download_chapter _url_hash urlparse_netloc urlparse_path parse w url n novel cache = (res, set_chapter _url_hash cache url ch novel).
Proof.
  destruct (download_cases w url n novel cache) as [->|(cached & -> & Hv)].
  - destruct (fresh_cases w url n novel cache) as [->|[->|(p & -> & _)]].
    + exists None. left. by split.
    + exists (Some (placeholder n)). left. split; [done|].
      intros ch [= <-]. right. apply placeholder_not_cacheable.
    + destruct (read_chapter_cases url n novel p cache) as [->|(ch & ->)].
      * exists None. left. by split.
      * exists (Some ch). destruct (cacheable (ch_content ch)) eqn:Hc.
        -- right. by exists ch.
        -- left. split; [done|]. intros ch' [= <-]. by right.
  - exists (Some cached). left. split; [done|]. intros ch [= <-]. by left.
Qed.

Lemma valid_cached_long ch :
  valid_cached ch = true ->
  (200 < len (ch_content ch))%nat /\ ch_content ch <> "Rate limited"%string.
Proof.
  unfold valid_cached. rewrite !andb_true_iff, !negb_true_iff, Nat.ltb_lt.
  intros [[_ Hl] Hr]. split; [done|]. intros Heq. by rewrite Heq in Hr.
Qed.

End DownloadFacts.

(** C3 (amended): a download writes to the chapter cache only the chapter
    it returns, under the chapter's URL, and only if the body is longer
    than 200 characters and contains neither "Rate limited" nor, in lower
    case, "abnormal activity", the two signatures that the write tests; a
    body that is exactly "Rate limited" or has at most 200 characters
    leaves the cache as it was. *)
Theorem chapter_cache_write_guard (_url_hash urlparse_netloc urlparse_path : string -> string)
    (parse : string -> Page) (w : Web) (url : string) (chapter_num : Z)
    (novel_url : option string) (cache cache' : Cache) (res : option Chapter) :
  _download_chapter _url_hash urlparse_netloc urlparse_path parse w url
    chapter_num novel_url cache = (res, cache') ->
  (cache' <> cache ->
   exists ch, res = Some ch
     /\ cache' = set_chapter _url_hash cache url ch novel_url
     /\ (200 < len (ch_content ch))%nat
     /\ contains "Rate limited" (ch_content ch) = false
     /\ contains "abnormal activity" (lower (ch_content ch)) = false)
  /\ (forall ch, res = Some ch ->
        ch_content ch = "Rate limited"%string \/ (len (ch_content ch) <= 200)%nat ->
        cache' = cache
        /\ get_chapter _url_hash cache' url novel_url
           = get_chapter _url_hash cache url novel_url).
Proof.
  intros Hdl.
  destruct (download_write _url_hash urlparse_netloc urlparse_path parse
              w url chapter_num novel_url cache)
    as (res0 & [[Heq Hres]|(ch & -> & Hc & Heq)]);
    rewrite Heq in Hdl; injection Hdl as <- <-.
  - split; [done|]. intros ch Hch Hbody. done.
  - split.
    + intros _. exists ch. split_and!; [done|done|..]; by apply cacheable_long.
    + intros ch' [= <-] Hbody. apply not_cacheable in Hbody. congruence.
Qed.

Lemma chapter_cache_write_guard_witness :
  (_download_chapter id simple_netloc simple_path
     (page_with "Chapter 1" "Rate limited")
     (plain_web (mkResponse 200 "<html></html>"))
     "https://site.org/book/chapter-1" 1 None empty_cache).2 = empty_cache.
Proof.
  set (r := _download_chapter id simple_netloc simple_path
              (page_with "Chapter 1" "Rate limited")
              (plain_web (mkResponse 200 "<html></html>"))
              "https://site.org/book/chapter-1" 1 None empty_cache).
  destruct (chapter_cache_write_guard id simple_netloc simple_path
              (page_with "Chapter 1" "Rate limited")
              (plain_web (mkResponse 200 "<html></html>"))
              "https://site.org/book/chapter-1" 1 None empty_cache r.2 r.1)
    as [_ H].
  - apply surjective_pairing.
  - refine (proj1 (H (mkChapter "Chapter 1" "Rate limited" 1
                        (Some "https://site.org/book/chapter-1"%string)) _ _)).
    + vm_compute. reflexivity.
    + left. reflexivity.
Defined.

(** C3 (as stated) fails: a page whose body is longer than 200 characters
    and ends in the signature "Checking your browser" is answered with
    status 200, passes the ladder and the anti-bot check, and its body is
    written to the chapter cache under the URL of the chapter. *)
Lemma block_page_body_is_cached :
  let body := (repeat_string "All was quiet. " 60
               +:+ "Checking your browser before accessing the site.")%string in
  let url := "https://site.org/book/chapter-1"%string in
  let r := _download_chapter id simple_netloc simple_path
             (fun html => mkPage html None (Some "Chapter 1"%string) html)
             (plain_web (mkResponse 200 body)) url 1 None empty_cache in
  exists ch,
    r.1 = Some ch
    /\ ch_content ch = body
    /\ (200 <? len (ch_content ch))%nat = true
    /\ contains "checking your browser" (lower (ch_content ch)) = true
    /\ get_chapter id empty_cache url None = None
    /\ get_chapter id r.2 url None = Some ch.
Proof. vm_compute. eexists. repeat split. Qed.

(** ** The mismatch guard *)

(** C1 (the code at the failing input): a NovelBuddy chapter is asked for
    with expected number 0, as for the first link of a job started at
    chapter 0.  The page that comes back is headed "Chapter5: Dusk": the
    number of its title is 5 and the number of the URL is 1, so the
    expected number disagrees with both; the path lies under the base path
    of the novel.  The guard tests the expected number for truth before it
    compares, so it does not fire: the chapter is returned under number 0
    and written to the chapter cache. *)
Theorem mismatch_guard_skips_zero :
  let url := "https://novelbuddy.com/novel/abc/chapter-1"%string in
  let novel := Some "https://novelbuddy.com/novel/abc"%string in
  let r := _download_chapter id simple_netloc simple_path
             (page_with "Chapter5: Dusk" (repeat_string "All was quiet. " 20))
             (plain_web (mkResponse 200 "<html></html>"))
             url 0 novel empty_cache in
  contains "novelbuddy" url = true
  /\ title_number (chapter_title (Some "Chapter5: Dusk"%string) 0 novel) = Some 5
  /\ _extract_chapter_number url = 1
  /\ number_mismatch 0 (chapter_title (Some "Chapter5: Dusk"%string) 0 novel) url = false
  /\ startswith "/novel/abc" (lower (simple_path url)) = true
  /\ ch_title <$> r.1 = Some "Chapter5: Dusk"%string
  /\ chapter_num <$> r.1 = Some 0
  /\ is_Some r.1
  /\ get_chapter id r.2 url novel = r.1.
Proof. vm_compute. repeat split; eauto. Qed.

(** X30: what the guard does reject.  On a NovelBuddy URL, for a page that
    is fetched and passes the anti-bot check, if the expected number is
    not zero and differs from a non-zero number of the title or from a
    non-zero number of the URL, or if the novel URL has a base path
    [/novel/<slug>] with which the path of the chapter URL does not start,
    then the download returns nothing and leaves the cache as it was, and
    the coordinator records the URL as failed without adding a chapter. *)
Theorem mismatch_guard (_url_hash urlparse_netloc urlparse_path : string -> string)
    (parse : string -> Page) (w : Web) (url : string) (chapter_num : Z)
    (novel_url : option string) (cache : Cache) (p0 p : Page) :
  contains "novelbuddy" url = true ->
  (forall c, get_chapter _url_hash cache url novel_url = Some c -> valid_cached c = false) ->
  fetch_soup urlparse_netloc parse w url = Some p0 ->
  check_page urlparse_netloc parse w url p0 = Usable p ->
  (chapter_num <> 0
   /\ ((exists t, title_number (chapter_title (page_h1 p) chapter_num novel_url) = Some t
                  /\ t <> 0 /\ t <> chapter_num)
       \/ (_extract_chapter_number url <> 0
           /\ _extract_chapter_number url <> chapter_num)))
  \/ (exists base, novel_base_path novel_url = Some base
                   /\ startswith base (lower (urlparse_path url)) = false) ->
  _download_chapter _url_hash urlparse_netloc urlparse_path parse w url
    chapter_num novel_url cache = (None, cache)
  /\ forall (j : Job) (st : Collected),
       download j url chapter_num = None ->
       chapters (record_result _url_hash j (url, chapter_num) st) = chapters st
       /\ failed_urls (record_result _url_hash j (url, chapter_num) st)
          = failed_urls st ++ [url].
Proof.
  intros Hsite Hcache Hfetch Hcheck Hmis. split.
  - assert (Hfresh : download_fresh _url_hash urlparse_netloc urlparse_path parse
                       w url chapter_num novel_url cache = (None, cache)).
    { unfold download_fresh. rewrite Hfetch, Hcheck. unfold read_chapter.
      rewrite Hsite, andb_true_r.
      assert (Hm : number_mismatch chapter_num
                     (chapter_title (page_h1 p) chapter_num novel_url) url
                   || slug_path_mismatch urlparse_path url novel_url = true);
        [|by rewrite Hm].
      apply orb_true_iff.
      destruct Hmis as [[Hn [(t & Ht & Ht0 & Htn)|[Hu0 Hun]]]|(base & Hb & Hs)].
      + left. unfold number_mismatch. rewrite Ht. simpl.
        apply orb_true_iff. left.
        rewrite !andb_true_iff, !negb_true_iff, !Z.eqb_neq. done.
      + left. unfold number_mismatch. apply orb_true_iff. right. simpl.
        rewrite !andb_true_iff, !negb_true_iff, !Z.eqb_neq. done.
      + right. unfold slug_path_mismatch. rewrite Hb, Hsite, Hs. done. }
    unfold _download_chapter.
    destruct (get_chapter _url_hash cache url novel_url) as [c|] eqn:Hc; [|done].
    by rewrite (Hcache c).
  - intros j st Hd. rewrite record_result_chapters, record_result_failed.
    unfold result_of. simpl. rewrite Hd. simpl. by rewrite app_nil_r.
Qed.

Lemma mismatch_guard_witness :
  _download_chapter id simple_netloc simple_path
    (page_with "Chapter 12: Dusk" (repeat_string "All was quiet. " 20))
    (plain_web (mkResponse 200 "<html></html>"))
    "https://novelbuddy.com/novel/abc/chapter-12" 7
    (Some "https://novelbuddy.com/novel/abc"%string) empty_cache
  = (None, empty_cache).
Proof.
  eapply (mismatch_guard id simple_netloc simple_path
            (page_with "Chapter 12: Dusk" (repeat_string "All was quiet. " 20))
            (plain_web (mkResponse 200 "<html></html>"))
            "https://novelbuddy.com/novel/abc/chapter-12" 7
            (Some "https://novelbuddy.com/novel/abc"%string) empty_cache).
  - vm_compute. reflexivity.
  - intros c Hc. vm_compute in Hc. discriminate.
  - vm_compute. reflexivity.
  - vm_compute. reflexivity.
  - left. split; [lia|]. right. vm_compute. split; discriminate.
Defined.

(** ** Blocked answers *)

Lemma lower_take n s : lower (take n s) = take n (lower s).
Proof.
  revert s. induction n as [|n IH]; intros [|c s]; simpl; try done.
  by rewrite IH.
Qed.

Lemma take_take n m s : (n <= m)%nat -> take n (take m s) = take n s.
Proof.
  revert m s. induction n as [|n IH]; intros m s Hle; [by destruct m, s|].
  destruct m as [|m]; [lia|]. destruct s as [|c s]; simpl; [done|].
  rewrite IH by lia. done.
Qed.

Lemma startswith_take p n s : startswith p (take n s) = true -> startswith p s = true.
Proof.
  revert n s. induction p as [|a p IH]; intros n s; [done|].
  destruct n as [|n], s as [|b s]; simpl; try done.
  destruct (Ascii.eqb a b); [apply IH | done].
Qed.

Lemma contains_take p n s : contains p (take n s) = true -> contains p s = true.
Proof.
  revert n. induction s as [|c s IH]; intros n.
  - by destruct n.
  - destruct n as [|n].
    + simpl. rewrite orb_false_r. intros H.
      apply orb_true_iff. left. by apply (startswith_take p 0).
    + cbn [take]. cbn [contains]. rewrite !orb_true_iff.
      intros [H|H]; [left; by apply (startswith_take p (S n)) | right; by apply (IH n)].
Qed.

(** A signature absent from the sample of 800 characters is absent from
    the sample of 500. *)
Lemma sample_500_800 sig body :
  contains sig (lower (take 800 body)) = false ->
  contains sig (lower (take 500 body)) = false.
Proof.
  intros H. destruct (contains sig (lower (take 500 body))) eqn:E; [|done].
  rewrite <- H. symmetry.
  rewrite <- (take_take 500 800 body) in E by lia.
  rewrite lower_take in E. by apply contains_take in E.
Qed.

Lemma classify_success resp :
  classify resp = Success ->
  status_code resp = 200
  /\ challenge_page (lower (take 800 (text resp))) = false
  /\ bot_block_page (lower (take 800 (text resp))) = false.
Proof.
  unfold classify. destruct (status_code resp =? 200) eqn:Hs.
  - apply Z.eqb_eq in Hs.
    destruct (challenge_page _ || bot_block_page _) eqn:Hb; [done|].
    apply orb_false_elim in Hb. tauto.
  - by destruct ((status_code resp =? 403) || (status_code resp =? 503)
                 || (status_code resp =? 429)).
Qed.

Lemma classify_blocked resp :
  classify resp = Blocked <->
  status_code resp = 403 \/ status_code resp = 503 \/ status_code resp = 429
  \/ (status_code resp = 200
      /\ (challenge_page (lower (take 800 (text resp)))
          || bot_block_page (lower (take 800 (text resp)))) = true).
Proof.
  unfold classify. destruct (status_code resp =? 200) eqn:Hs.
  - apply Z.eqb_eq in Hs. rewrite Hs.
    destruct (challenge_page _ || bot_block_page _); split; try done;
      try (intros _; by repeat right).
    intros [?|[?|[?|[_ ?]]]]; done.
  - apply Z.eqb_neq in Hs.
    destruct (status_code resp =? 403) eqn:H1;
      [apply Z.eqb_eq in H1; simpl; split; [by left | done]|].
    destruct (status_code resp =? 503) eqn:H2;
      [apply Z.eqb_eq in H2; simpl; split; [by right; left | done]|].
    destruct (status_code resp =? 429) eqn:H3;
      [apply Z.eqb_eq in H3; simpl; split; [by right; right; left | done]|].
    apply Z.eqb_neq in H1, H2, H3. simpl. split; [done|].
    intros [?|[?|[?|[? _]]]]; done.
Qed.

Section LadderFacts.

Variable net : Net.
Variable rotate_per_attempt rotate_on_block heavy_security : bool.

(** The retry loop returns only answers classified as a success. *)
Lemma attempts_success left attempt last_blocked resp :
  attempts net rotate_per_attempt rotate_on_block heavy_security
    left attempt last_blocked = Some resp ->
  classify resp = Success.
Proof.
  revert attempt last_blocked.
  induction left as [|left IH]; intros attempt last_blocked; simpl; [done|].
  destruct (attempt_get net _ attempt) as [r|]; [|apply IH].
  destruct (classify r) eqn:Hc; [|apply IH|apply IH].
  by intros [= <-].
Qed.

(** A blocked answer moves the loop to the next attempt. *)
Lemma attempts_blocked left attempt last_blocked resp :
  attempt_get net
    (session_for rotate_per_attempt rotate_on_block heavy_security last_blocked)
    attempt = Answer resp ->
  classify resp = Blocked ->
  attempts net rotate_per_attempt rotate_on_block heavy_security
    (S left) attempt last_blocked
  = attempts net rotate_per_attempt rotate_on_block heavy_security
      left (S attempt) true.
Proof. intros Hg Hc. simpl. by rewrite Hg, Hc. Qed.

(** The mirror step returns only answers that pass its test. *)
Lemma try_mirrors_accepts url domain mirrors resp :
  try_mirrors net rotate_per_attempt heavy_security url domain mirrors = Some resp ->
  mirror_accepts resp = true.
Proof.
  induction mirrors as [|m mirrors IH]; simpl; [done|].
  destruct (contains m url); [done|].
  destruct (mirror_get net _ _) as [r|]; [|done].
  destruct (mirror_accepts r) eqn:Hm; [|done].
  by intros [= <-].
Qed.

Lemma ladder_status url domain retries resp :
  ladder net rotate_per_attempt rotate_on_block heavy_security url domain retries
  = Some resp ->
  status_code resp = 200
  /\ contains "checking your browser" (lower (take 500 (text resp))) = false.
Proof.
  unfold ladder.
  destruct (attempts _ _ _ _ _ _ _) as [r|] eqn:Ha.
  - intros [= <-]. apply attempts_success, classify_success in Ha as (Hs & Hc & _).
    split; [done|]. unfold challenge_page in Hc.
    apply orb_false_elim in Hc as [Hc _]. apply orb_false_elim in Hc as [_ Hc].
    by apply sample_500_800.
  - intros Hm. apply try_mirrors_accepts in Hm. unfold mirror_accepts in Hm.
    apply andb_true_iff in Hm as [Hs Hc].
    apply Z.eqb_eq in Hs. by apply negb_true_iff in Hc.
Qed.

End LadderFacts.

(** C2 (as stated) fails: an answer with status 200 whose body contains
    "just a moment" after its first 800 characters is returned by the
    ladder at the first attempt. *)
Lemma late_signature_is_returned :
  let resp := mkResponse 200 (repeat_string "x" 800 +:+ "Just a moment...") in
  contains "just a moment" (lower (text resp)) = true
  /\ _get_with_retry (answering resp) "https://site.org/book/chapter-1" "site.org"
       false false max_retries = Some resp.
Proof. vm_compute. auto. Qed.

(** C2 (amended): an answer returned by the ladder has status 200, never
    403, 503 or 429, and its first 500 characters do not contain "checking
    your browser"; the retry loop returns only answers of status 200 whose
    first 800 characters, in lower case, contain none of the challenge and
    bot-block signatures; an answer that the loop classifies as blocked
    (status 403, 503 or 429, or status 200 with a signature in the first
    800 characters) always leads to the next attempt; and a downloaded
    chapter is the valid entry that the chapter cache holds for the URL,
    the rate-limit placeholder, or has the normalized body of the page
    that passed the anti-bot check: the page that was fetched if it shows
    no signature, otherwise the page fetched again, and in both cases a
    page whose first 500 characters of text contain neither "abnormal
    activity" nor "dear visitor". *)
Theorem blocked_answers_continue_the_ladder :
  (forall net url domain rotate_per_attempt rotate_on_block retries resp,
     _get_with_retry net url domain rotate_per_attempt rotate_on_block retries
     = Some resp ->
     status_code resp = 200
     /\ contains "checking your browser" (lower (take 500 (text resp))) = false)
  /\ (forall net rotate_per_attempt rotate_on_block heavy_security retries resp,
        attempts net rotate_per_attempt rotate_on_block heavy_security retries 0 false
        = Some resp ->
        status_code resp = 200
        /\ challenge_page (lower (take 800 (text resp))) = false
        /\ bot_block_page (lower (take 800 (text resp))) = false)
  /\ (forall net rotate_per_attempt rotate_on_block heavy_security
             left attempt last_blocked resp,
        attempt_get net
          (session_for rotate_per_attempt rotate_on_block heavy_security last_blocked)
          attempt = Answer resp ->
        status_code resp = 403 \/ status_code resp = 503 \/ status_code resp = 429
        \/ (status_code resp = 200
            /\ (challenge_page (lower (take 800 (text resp)))
                || bot_block_page (lower (take 800 (text resp)))) = true) ->
        attempts net rotate_per_attempt rotate_on_block heavy_security
          (S left) attempt last_blocked
        = attempts net rotate_per_attempt rotate_on_block heavy_security
            left (S attempt) true)
  /\ (forall _url_hash urlparse_netloc urlparse_path parse w url chapter_num
             novel_url cache ch cache',
        _download_chapter _url_hash urlparse_netloc urlparse_path parse w url
          chapter_num novel_url cache = (Some ch, cache') ->
        (valid_cached ch = true /\ cache' = cache
         /\ get_chapter _url_hash cache url novel_url = Some ch)
        \/ (ch = placeholder chapter_num /\ cache' = cache)
        \/ exists p0 p,
             fetch_soup urlparse_netloc parse w url = Some p0
             /\ check_page urlparse_netloc parse w url p0 = Usable p
             /\ (rate_limited p0 = false -> p = p0)
             /\ read_chapter _url_hash urlparse_path url chapter_num novel_url p cache
                = (Some ch, cache')
             /\ ch_content ch
                = normalize_content (ch_title ch) (novel_slug novel_url) (page_body p)
             /\ still_rate_limited p = false).
Proof.
  split_and!.
  - intros net url domain rpa rob retries resp. unfold _get_with_retry.
    apply ladder_status.
  - intros net rpa rob hs retries resp Ha.
    by apply attempts_success, classify_success in Ha.
  - intros net rpa rob hs left attempt lb resp Hg Hb.
    apply attempts_blocked with resp; [done|]. by apply classify_blocked.
  - intros h netloc path parse w url n novel cache ch cache' Hdl.
    unfold _download_chapter in Hdl.
    destruct (get_chapter h cache url novel) as [cached|] eqn:Hg;
      [destruct (valid_cached cached) eqn:Hv;
         [injection Hdl as <- <-; by left|]|];
      (destruct (fresh_page_cases h netloc path parse w url n novel cache)
         as [Hf|[Hf|(p0 & p & Hp0 & Hp & Hf & Hs)]]; rewrite Hf in Hdl;
       [done | injection Hdl as <- <-; by right; left |]);
      (right; right; exists p0, p; split_and!; [done|done| |done| |done];
       [intros Hr; unfold check_page in Hp; rewrite Hr in Hp; by injection Hp
       |unfold read_chapter in Hdl;
        destruct ((number_mismatch _ _ _ || slug_path_mismatch _ _ _) && _);
          [done|]; by injection Hdl as <- <-]).
Qed.

Lemma blocked_answers_continue_the_ladder_witness :
  attempts (mirrored 503 (mkResponse 200 "<html>ok</html>")) false false false 4 0 false
  = attempts (mirrored 503 (mkResponse 200 "<html>ok</html>")) false false false 3 1 true
  /\ status_code (mkResponse 200 "<html>ok</html>") = 200.
Proof.
  destruct blocked_answers_continue_the_ladder as (H1 & _ & H3 & _).
  split.
  - apply (H3 _ false false false 3%nat 0%nat false (mkResponse 503 "")).
    + reflexivity.
    + right. left. reflexivity.
  - apply (H1 (mirrored 503 (mkResponse 200 "<html>ok</html>"))
              "https://novelbin.com/b/book/chapter-1" "novelbin.com"
              false false max_retries).
    vm_compute. reflexivity.
Defined.

(** * Further properties of the coordinator *)

(** ** The sort of the links *)

Section Stability.

Context {A : Type} (key : A -> Z).

Lemma insert_by_filter (k : Z) x l :
  filter (fun y => key y = k) (insert_by key x l)
  = filter (fun y => key y = k) (x :: l).
Proof.
  induction l as [|y l IH]; simpl; [done|].
  destruct (key x <=? key y) eqn:E; [done|].
  apply Z.leb_gt in E.
  rewrite (filter_cons _ y (insert_by key x l)), IH.
  rewrite !filter_cons.
  destruct (decide (key y = k)), (decide (key x = k)); try done. lia.
Qed.

(** The sort is stable: the links of one number keep their order. *)
Lemma sorted_by_stable (k : Z) l :
  filter (fun y => key y = k) (sorted_by key l) = filter (fun y => key y = k) l.
Proof.
  induction l as [|x l IH]; [done|].
  unfold sorted_by in *. simpl. rewrite insert_by_filter.
  rewrite !filter_cons. by rewrite IH.
Qed.

End Stability.

(** X1: step 3 of [scrape] only reorders the collected links: the sorted
    list is a permutation of the collected one, its numbers never
    decrease, and links with the same number keep the order in which they
    were collected. *)
Theorem sorted_links_reorders_only (j : Job) :
  sorted_links j ≡ₚ chapter_links j
  /\ StronglySorted (fun u v => _extract_chapter_number u <= _extract_chapter_number v)
       (sorted_links j)
  /\ forall n, filter (fun u => _extract_chapter_number u = n) (sorted_links j)
               = filter (fun u => _extract_chapter_number u = n) (chapter_links j).
Proof.
  unfold sorted_links. split_and!.
  - apply sorted_by_perm.
  - pose proof (sorted_by_sorted link_key (chapter_links j)) as Hs.
    induction Hs as [|x l Hs IH Hx]; constructor; [done|].
    eapply Forall_impl; [exact Hx|]. intros y. unfold key_le.
    by rewrite !link_key_number.
  - intros n.
    pose proof (sorted_by_stable link_key n (chapter_links j)) as Hst.
    erewrite (list_filter_iff _ (fun y => link_key y = n));
      [|intros u; by rewrite link_key_number].
    rewrite Hst. apply list_filter_iff. intros u. by rewrite link_key_number.
Qed.

(** ** The selected range *)

Lemma py_slice_segment {A} (start stop : Z) (l : list A) :
  exists pre post, l = pre ++ py_slice start stop l ++ post.
Proof.
  unfold py_slice.
  set (a := Z.to_nat _). set (b := Z.to_nat start).
  exists (firstn b l), (skipn a (skipn b l)).
  by rewrite (firstn_skipn a), (firstn_skipn b).
Qed.

Lemma py_slice_length {A} (start stop : Z) (l : list A) :
  0 <= stop -> (length (py_slice start stop l) <= Z.to_nat (stop - start))%nat.
Proof.
  intros Hs. unfold py_slice.
  assert (Hn : (stop <? 0) = false) by (apply Z.ltb_ge; lia). rewrite Hn.
  rewrite length_firstn. lia.
Qed.

(** X2: the links selected for download are a contiguous segment of the
    sorted list, and a request with a positive [chapter_end] selects at
    most [chapter_end - chapter_start + 1] links, plus one on Ranobes when
    the request starts at chapter 1. *)
Theorem range_is_bounded_segment (j : Job) :
  (exists pre post, sorted_links j = pre ++ range_links j ++ post)
  /\ forall e, chapter_end j = Some e -> 0 < e ->
       (length (range_links j)
        <= Z.to_nat (e - chapter_start j + 1)
           + (if include_prologue j then 1 else 0))%nat.
Proof.
  split; [apply py_slice_segment|].
  intros e He Hpos. unfold range_links. rewrite He.
  assert (Ht : truthy_end (Some e) = Some e).
  { unfold truthy_end. destruct (e =? 0) eqn:E; [apply Z.eqb_eq in E; lia | done]. }
  rewrite Ht.
  destruct (include_prologue j).
  - etransitivity; [apply py_slice_length; lia|]. lia.
  - etransitivity; [apply py_slice_length; lia|]. lia.
Qed.

Lemma range_is_bounded_segment_witness :
  Nat.le
    (length (range_links
       (mkJob "https://site.org/book" 2 (Some 3) None "T"
          ["https://site.org/book/chapter-1"; "https://site.org/book/chapter-2";
           "https://site.org/book/chapter-3"; "https://site.org/book/chapter-4"]%string
          5 None id (fun _ _ => None))))
    2.
Proof.
  refine (proj2 (range_is_bounded_segment _) 3 _ _); [reflexivity | lia].
Defined.

(** ** Accounting of the collection loop *)





Section CollectUrls.

Variable h : string -> string.
Variable j : Job.

Lemma record_result_completed_urls fut st :
  completed_urls (record_result h j fut st)
  = completed_urls st ++ match result_of j fut with Some _ => [fut.1] | None => [] end.
Proof.
  unfold record_result, result_of. destruct fut as [u n]. simpl.
  destruct (download j u n); simpl;
    match goal with |- context [if ?b then _ else _] => destruct b end;
    simpl; by rewrite ?app_nil_r.
Qed.

Lemma record_result_completed fut st :
  completed (record_result h j fut st) = S (completed st).
Proof.
  unfold record_result. destruct fut as [u n].
  destruct (download j u n); simpl;
    match goal with |- context [if ?b then _ else _] => destruct b end; done.
Qed.



(** The futures completed before the first poll that signals cancellation
    are recorded; no later one is. *)
Lemma collect_cancelled k n futs st :
  (forall i, (i < n)%nat -> poll j (k + i) = false) ->
  poll j (k + n) = true ->
  (n < length futs)%nat ->
  chapters (collect h j k futs st)
  = chapters st ++ omap (result_of j) (firstn n futs)
  /\ completed (collect h j k futs st) = (completed st + n)%nat.
Proof.
  revert k futs st. induction n as [|n IH]; intros k futs st Hbefore Hat Hlen.
  - destruct futs as [|fut futs]; [simpl in Hlen; lia|].
    simpl. rewrite Nat.add_0_r in Hat. rewrite Hat. simpl.
    by rewrite app_nil_r, Nat.add_0_r.
  - destruct futs as [|fut futs]; [simpl in Hlen; lia|].
    assert (Hk : poll j k = false).
    { rewrite <- (Nat.add_0_r k). apply Hbefore. lia. }
    simpl. rewrite Hk.
    destruct (IH (S k) futs (record_result h j fut st)) as [Hch Hco].
    + intros i Hi. replace (S k + i)%nat with (k + S i)%nat by lia.
      apply Hbefore. lia.
    + by replace (S k + n)%nat with (k + S n)%nat by lia.
    + simpl in Hlen. lia.
    + rewrite Hch, Hco, record_result_chapters, record_result_completed.
      split; [|lia]. rewrite <- app_assoc. f_equal. by destruct (result_of j fut).
Qed.

End CollectUrls.



(** X4: when cancellation is first signalled at the poll that follows [n]
    completions, the job keeps the chapters of exactly these [n]
    completions, in the order of completion, and counts [n] more units as
    done; no later completion is recorded. *)
Theorem cancellation_stops_collection (_url_hash : string -> string) (j : Job)
    (cache : Cache) (n : nat) :
  (forall i, (i < n)%nat -> poll j i = false) ->
  poll j n = true ->
  (n < length (dispatched _url_hash j cache))%nat ->
  (forall futs, length (as_completed j futs) = length futs) ->
  let st := collected _url_hash j cache in
  chapters st
  = (preloaded _url_hash j cache).*2
    ++ omap (result_of j) (firstn n (as_completed j (dispatched _url_hash j cache)))
  /\ completed st = (length (preloaded _url_hash j cache) + n)%nat.
Proof.
  intros Hbefore Hat Hlen Hsame st. unfold st, collected.
  destruct (collect_cancelled _url_hash j 0 n
              (as_completed j (dispatched _url_hash j cache))
              (mkCollected (preloaded _url_hash j cache).*2
                 (preloaded _url_hash j cache).*1 []
                 (length (preloaded _url_hash j cache))
                 (save_progress _url_hash j (preloaded _url_hash j cache).*1 []
                    in_progress cache))) as [H1 H2]; try done.
  by rewrite Hsame.
Qed.

Lemma cancellation_stops_collection_witness :
  let j := mkJob "https://site.org/book" 1 None None "T"
             ["https://site.org/book/chapter-1"; "https://site.org/book/chapter-2";
              "https://site.org/book/chapter-3"]%string
             5 (Some (fun k => (2 <=? k)%nat)) (@rev _)
             (fun u n => Some (mkChapter "" u n (Some u))) in
  chapter_num <$> chapters (collected id j empty_cache) = [3; 2]
  /\ completed (collected id j empty_cache) = 2%nat.
Proof.
  intros j.
  destruct (cancellation_stops_collection id j empty_cache 2) as [H1 H2].
  - intros i Hi. destruct i as [|[|i]]; [reflexivity | reflexivity | lia].
  - reflexivity.
  - vm_compute. lia.
  - intros futs. apply length_rev.
  - split; [rewrite H1; vm_compute; reflexivity | rewrite H2; reflexivity].
Defined.

(** ** The progress store during a job *)

Section StoreFacts.

Variable h : string -> string.
Variable j : Job.

Lemma save_progress_no_user c f st cache :
  active_user j = None -> save_progress h j c f st cache = cache.
Proof. intros Hu. unfold save_progress. by rewrite Hu. Qed.

Lemma record_result_store_no_user fut st :
  active_user j = None -> store (record_result h j fut st) = store st.
Proof.
  intros Hu. unfold record_result. destruct fut as [u n].
  destruct (download j u n); simpl;
    match goal with |- context [if ?b then _ else _] => destruct b end;
    simpl; by rewrite ?save_progress_no_user.
Qed.

Lemma collect_store_no_user k futs st :
  active_user j = None -> store (collect h j k futs st) = store st.
Proof.
  intros Hu. revert k st. induction futs as [|fut futs IH]; intros k st; simpl; [done|].
  destruct (poll j k); simpl; [by rewrite save_progress_no_user|].
  by rewrite IH, record_result_store_no_user.
Qed.




End StoreFacts.

(** X5: the record that a job leaves for its user and novel, for a user
    id that names a file (no path separator) and a selection that is not
    empty.  When the pool of workers is created, the store ends with a
    record exactly when some URL failed: then the record has status
    partial and lists the completed and the failed URLs; with no failed
    URL there is no record, even after a cancellation.  When the pool is
    refused (a number of workers that is not positive), the record has
    status failed, lists the chapters taken from the cache and carries the
    error. *)
Theorem final_progress_record (_url_hash : string -> string) (j : Job)
    (cache : Cache) (u : string) :
  active_user j = Some u ->
  file_name u = true ->
  range_links j <> [] ->
  let st := collected _url_hash j cache in
  (0 < chapter_workers (url j) (parallel_workers j) ->
   get_download_progress _url_hash (cache_after (scrape _url_hash j cache)) u (url j)
   = match failed_urls st with
     | [] => None
     | _ => Some (progress_record j (completed_urls st) (failed_urls st) partial)
     end)
  /\ (chapter_workers (url j) (parallel_workers j) <= 0 ->
      get_download_progress _url_hash (cache_after (scrape _url_hash j cache)) u (url j)
      = Some (mkProgress (title j) (chapter_start j) (chapter_end j)
                (preloaded _url_hash j cache).*1 [] failed (Some pool_error))).
Proof.
  intros Hu Hfile Hr st. rewrite scrape_download_step by done. split; intros Hw.
  - rewrite download_step_pool by done.
    unfold with_pool. cbn [cache_after]. rewrite Hu. fold st.
    destruct (failed_urls st) eqn:Hf.
    + unfold get_download_progress, clear_download_progress. rewrite Hfile. simpl.
      apply lookup_delete_eq.
    + unfold save_progress. rewrite Hu.
      unfold get_download_progress, save_download_progress. rewrite Hfile. simpl.
      apply lookup_insert_eq.
  - rewrite download_step_no_pool by done.
    unfold pool_failure. cbn [cache_after]. rewrite Hu.
    unfold get_download_progress, save_download_progress. rewrite Hfile. simpl.
    apply lookup_insert_eq.
Qed.

Lemma final_progress_record_witness :
  let j := mkJob "https://site.org/book" 1 None (Some "user42"%string) "T"
             ["https://site.org/book/chapter-1"; "https://site.org/book/chapter-2"]%string
             5 None id
             (fun u n => if n =? 2 then None else Some (mkChapter "" u n (Some u))) in
  status <$> get_download_progress id (cache_after (scrape id j empty_cache))
               "user42" "https://site.org/book" = Some partial
  /\ failed_chapters <$> get_download_progress id (cache_after (scrape id j empty_cache))
                           "user42" "https://site.org/book"
     = Some ["https://site.org/book/chapter-2"%string].
Proof.
  intros j.
  assert (Hr : range_links j <> []) by (vm_compute; discriminate).
  pose proof (proj1 (final_progress_record id j empty_cache "user42" eq_refl eq_refl Hr)
                eq_refl) as H.
  cbv zeta in H. change (url j) with "https://site.org/book"%string in H.
  rewrite H. vm_compute. auto.
Defined.

(** X6: a job run without a user id (none given, or an empty one) writes
    no progress record: the coordinator leaves the cache state as it found
    it (the chapter files are written by the downloads, not by the
    coordinator). *)
Theorem anonymous_job_keeps_cache (_url_hash : string -> string) (j : Job)
    (cache : Cache) :
  active_user j = None -> cache_after (scrape _url_hash j cache) = cache.
Proof.
  intros Hu. unfold scrape.
  destruct (chapter_links j); [done|]. destruct (range_links j); [done|].
  unfold download_step. destruct (0 <? _).
  - unfold with_pool. cbn [cache_after]. rewrite Hu.
    unfold collected. rewrite collect_store_no_user by done. simpl.
    by apply save_progress_no_user.
  - unfold pool_failure. cbn [cache_after]. rewrite Hu.
    by apply save_progress_no_user.
Qed.

Lemma anonymous_job_keeps_cache_witness :
  cache_after
    (scrape id
       (mkJob "https://site.org/book" 1 None (Some ""%string) "T"
          ["https://site.org/book/chapter-1"]%string 5 None id (fun _ _ => None))
       empty_cache) = empty_cache.
Proof. apply anonymous_job_keeps_cache. reflexivity. Defined.



(** ** Normalised chapters *)

Lemma renumber_lookup r idx l i c :
  renumber r idx l !! i = Some c ->
  chapter_num c = idx + Z.of_nat i
  /\ exists c', l !! i = Some c' /\ ch_content c = ch_content c' /\ ch_url c = ch_url c'.
Proof.
  revert idx i. induction l as [|ch l IH]; intros idx i; simpl; [done|].
  destruct i as [|i]; simpl.
  - intros [= <-]. simpl. split; [lia|]. by exists ch.
  - intros Hc. destruct (IH _ _ Hc) as [Hn Hc']. split; [lia | done].
Qed.

Lemma length_renumber r idx l : length (renumber r idx l) = length l.
Proof. revert idx. induction l as [|ch l IH]; intros idx; simpl; [done|]. by rewrite IH. Qed.

Lemma find_index_lookup {A} (p : A -> bool) l i :
  find_index p l = Some i -> exists x, l !! i = Some x /\ p x = true.
Proof.
  revert i. induction l as [|x l IH]; intros i; simpl; [done|].
  destruct (p x) eqn:Hp.
  - intros [= <-]. by exists x.
  - destruct (find_index p l) as [i'|]; simpl; [|done].
    intros [= <-]. by apply IH.
Qed.

Lemma py_slice_prefix {A} (stop : Z) (l : list A) :
  exists k, py_slice 0 stop l = firstn k l.
Proof. unfold py_slice. simpl. eauto. Qed.

Lemma lookup_firstn_Some {A} (l : list A) k i x :
  firstn k l !! i = Some x -> l !! i = Some x.
Proof.
  revert k i. induction l as [|y l IH]; intros [|k] [|i]; simpl; try done.
  apply IH.
Qed.

Lemma lookup_delete_Some {A} (l : list A) k i x :
  delete k l !! i = Some x -> x ∈ l.
Proof.
  revert k i. induction l as [|y l IH]; intros k i; [by destruct k|].
  destruct k as [|k]; simpl.
  - intros Hx. right. by apply list_elem_of_lookup_2 in Hx.
  - destruct i as [|i]; simpl.
    + intros [= <-]. left.
    + intros Hx. right. by apply IH in Hx.
Qed.

(** The chapters that remain after the prologue was taken out and the
    list was trimmed come from the input. *)
Lemma trimmed_from_input (ce : option Z) (cs : Z) (remaining chs : list Chapter) i c :
  (forall i x, remaining !! i = Some x -> x ∈ chs) ->
  match truthy_end ce with
  | Some e => py_slice 0 (e - cs + 1) remaining
  | None => remaining
  end !! i = Some c -> c ∈ chs.
Proof.
  intros Hrem. destruct (truthy_end ce) as [e|]; [|apply Hrem].
  destruct (py_slice_prefix (e - cs + 1) remaining) as [k ->].
  intros Hc. apply lookup_firstn_Some in Hc. by apply Hrem in Hc.
Qed.

(** X8: [_normalize_chapters] numbers its output by position: the i-th
    chapter gets number [chapter_start + i], or [i] when a prologue is
    included, whatever number it was downloaded with; and the body and the
    URL of every output chapter are those of an input chapter. *)
Theorem normalized_numbers_are_positions (chs : list Chapter) (ip : bool)
    (cs : Z) (ce : option Z) (u : string) (i : nat) (c : Chapter) :
  _normalize_chapters chs ip cs ce u !! i = Some c ->
  chapter_num c = (if ip then 0 else cs) + Z.of_nat i
  /\ exists c', c' ∈ chs /\ ch_content c = ch_content c' /\ ch_url c = ch_url c'.
Proof.
  unfold _normalize_chapters. destruct chs as [|first others]; [done|].
  destruct ip.
  - destruct (find_index is_prologue (first :: others)) as [k|] eqn:Hk.
    + destruct (find_index_lookup _ _ _ Hk) as (p & Hp & _). rewrite Hp.
      destruct i as [|i]; simpl.
      * intros [= <-]. simpl. split; [done|]. exists p. split; [|done].
        by apply list_elem_of_lookup_2 in Hp.
      * intros Hc. apply renumber_lookup in Hc as (Hn & c' & Hc' & Hco & Hu).
        split; [lia|]. exists c'. split; [|done].
        eapply trimmed_from_input; [|exact Hc'].
        intros ? ?. apply lookup_delete_Some.
    + destruct i as [|i]; simpl.
      * intros [= <-]. simpl. split; [done|]. exists first. split; [left | done].
      * intros Hc. apply renumber_lookup in Hc as (Hn & c' & Hc' & Hco & Hu).
        split; [lia|]. exists c'. split; [|done].
        eapply (trimmed_from_input ce cs others); [|exact Hc'].
        intros ? x Hx. right. by apply list_elem_of_lookup_2 in Hx.
  - intros Hc. apply renumber_lookup in Hc as (Hn & c' & Hc' & Hco & Hu).
    split; [done|]. exists c'. split; [|done].
    eapply (trimmed_from_input ce cs (first :: others)); [|exact Hc'].
    intros ? x Hx. by apply list_elem_of_lookup_2 in Hx.
Qed.

Lemma normalized_numbers_are_positions_witness :
  _normalize_chapters
    [mkChapter "Three" "c" 3 None; mkChapter "Five" "e" 5 None]
    false 3 None "https://site.org/book" !! 1%nat
  = Some (mkChapter "Five" "e" 4 None)
  /\ chapter_num (mkChapter "Five" "e" 4 None) = 3 + Z.of_nat 1.
Proof.
  split; [reflexivity|].
  apply (normalized_numbers_are_positions
           [mkChapter "Three" "c" 3 None; mkChapter "Five" "e" 5 None]
           false 3 None "https://site.org/book" 1
           (mkChapter "Five" "e" 4 None) eq_refl).
Defined.

(** X9: when a prologue is requested and no title starts with "prologue",
    the first chapter of the input is relabelled: the output begins with a
    chapter titled "Prologue", numbered 0, that carries the body and the
    URL of the first input chapter. *)
Theorem first_chapter_becomes_prologue (first : Chapter) (others : list Chapter)
    (cs : Z) (ce : option Z) (u : string) :
  (forall c, c ∈ first :: others -> is_prologue c = false) ->
  exists rest,
    _normalize_chapters (first :: others) true cs ce u
    = mkChapter "Prologue" (ch_content first) 0 (ch_url first) :: rest
    /\ (length rest <= length others)%nat.
Proof.
  intros Hno. unfold _normalize_chapters.
  assert (Hf : find_index is_prologue (first :: others) = None).
  { destruct (find_index is_prologue (first :: others)) as [k|] eqn:Hk; [|done].
    destruct (find_index_lookup _ _ _ Hk) as (p & Hp & Hpro).
    apply list_elem_of_lookup_2 in Hp. by rewrite (Hno p Hp) in Hpro. }
  rewrite Hf. eexists. split; [reflexivity|].
  rewrite length_renumber. destruct (truthy_end ce) as [e|]; [|done].
  destruct (py_slice_prefix (e - cs + 1) others) as [k ->].
  rewrite length_firstn. lia.
Qed.

Lemma first_chapter_becomes_prologue_witness :
  exists rest,
    _normalize_chapters
      [mkChapter "Chapter 1: Dawn" "a" 1 None; mkChapter "Chapter 2: Dusk" "b" 2 None]
      true 1 (Some 1) "https://ranobes.net/novels/1-x.html"
    = mkChapter "Prologue" "a" 0 None :: rest
    /\ (length rest <= 1)%nat.
Proof.
  apply (first_chapter_becomes_prologue
           (mkChapter "Chapter 1: Dawn" "a" 1 None)
           [mkChapter "Chapter 2: Dusk" "b" 2 None]).
  intros c Hc. apply elem_of_cons in Hc as [->|Hc]; [reflexivity|].
  apply list_elem_of_singleton in Hc as ->. reflexivity.
Defined.

(** * Further properties of a download *)

Section DownloadMore.

Variable _url_hash : string -> string.
Variable urlparse_netloc urlparse_path : string -> string.
Variable parse : string -> Page.

Lemma cacheable_valid ch : cacheable (ch_content ch) = true -> valid_cached ch = true.
Proof.
  unfold cacheable, valid_cached. rewrite !andb_true_iff. tauto.
Qed.

Lemma get_set_chapter cache url content novel :
  get_chapter _url_hash (set_chapter _url_hash cache url content novel) url novel
  = Some content.
Proof. unfold get_chapter, set_chapter. simpl. apply lookup_insert_eq. Qed.

(** What a download returns when nothing valid is cached. *)
Lemma download_uncached w url n novel cache :
  (forall c, get_chapter _url_hash cache url novel = Some c -> valid_cached c = false) ->
  _download_chapter _url_hash urlparse_netloc urlparse_path parse w url n novel cache
  = download_fresh _url_hash urlparse_netloc urlparse_path parse w url n novel cache.
Proof.
  intros Hc. unfold _download_chapter.
  destruct (get_chapter _url_hash cache url novel) as [c|]; [|done].
  by rewrite (Hc c).
Qed.

End DownloadMore.

(** X10: once a download has returned a chapter whose body passes the
    cache test, every later download of the same URL for the same novel
    returns that chapter and leaves the cache as it is, whatever the
    network does and whatever chapter number is asked for. *)
Theorem cached_chapter_is_served_again
    (_url_hash urlparse_netloc urlparse_path : string -> string)
    (parse : string -> Page) (w w' : Web) (url : string) (n n' : Z)
    (novel_url : option string) (cache cache' : Cache) (ch : Chapter) :
  _download_chapter _url_hash urlparse_netloc urlparse_path parse w url n
    novel_url cache = (Some ch, cache') ->
  cacheable (ch_content ch) = true ->
  _download_chapter _url_hash urlparse_netloc urlparse_path parse w' url n'
    novel_url cache' = (Some ch, cache').
Proof.
  intros Hdl Hc.
  assert (Hget : get_chapter _url_hash cache' url novel_url = Some ch).
  { unfold _download_chapter in Hdl.
    assert (Hfresh : download_fresh _url_hash urlparse_netloc urlparse_path parse
                       w url n novel_url cache = (Some ch, cache') ->
                     get_chapter _url_hash cache' url novel_url = Some ch).
    { intros Hf.
      destruct (fresh_cases _url_hash urlparse_netloc urlparse_path parse
                  w url n novel_url cache) as [Hn|[Hp|(p & Hr & _)]];
        rewrite Hf in *.
      - done.
      - injection Hp as -> _. by rewrite placeholder_not_cacheable in Hc.
      - destruct (read_chapter_cases _url_hash urlparse_path url n novel_url p cache)
          as [Hnone|(ch0 & Hsome)]; rewrite <- Hr in *; [done|].
        injection Hsome as <- ->. rewrite Hc. apply get_set_chapter. }
    destruct (get_chapter _url_hash cache url novel_url) as [cached|] eqn:Hg;
      [|by apply Hfresh].
    destruct (valid_cached cached); [|by apply Hfresh].
    by injection Hdl as <- <-. }
  unfold _download_chapter. rewrite Hget. by rewrite cacheable_valid.
Qed.

Lemma cached_chapter_is_served_again_witness :
  let url := "https://site.org/book/chapter-1"%string in
  let body := repeat_string "All was quiet. " 20 in
  let first := _download_chapter id simple_netloc simple_path
                 (page_with "Chapter 1: Dawn" body)
                 (plain_web (mkResponse 200 "<html></html>")) url 1 None empty_cache in
  _download_chapter id simple_netloc simple_path (page_with "Chapter 1: Dawn" body)
    (plain_web (mkResponse 503 "")) url 9 None first.2
  = first.
Proof.
  intros url body first.
  assert (Hf : first = (Some (mkChapter "Chapter 1: Dawn" (strip body) 1 (Some url)),
                        first.2)).
  { vm_compute. reflexivity. }
  rewrite Hf at 2.
  eapply cached_chapter_is_served_again; [exact Hf | vm_compute; reflexivity].
Defined.

(** X11: a download leaves the progress store alone and changes no file
    of the chapter cache other than the one of its own URL and novel. *)
Theorem download_keeps_other_files
    (_url_hash urlparse_netloc urlparse_path : string -> string)
    (parse : string -> Page) (w : Web) (url : string) (n : Z)
    (novel_url : option string) (cache cache' : Cache) (res : option Chapter) :
  _download_chapter _url_hash urlparse_netloc urlparse_path parse w url n
    novel_url cache = (res, cache') ->
  progress_files cache' = progress_files cache
  /\ forall p, p <> chapter_file _url_hash url novel_url ->
       chapter_files cache' !! p = chapter_files cache !! p.
Proof.
  intros Hdl.
  destruct (download_write _url_hash urlparse_netloc urlparse_path parse
              w url n novel_url cache)
    as (res0 & [[Heq _]|(ch & -> & _ & Heq)]);
    rewrite Heq in Hdl; injection Hdl as <- <-; [done|].
  split; [done|]. intros p Hp. unfold set_chapter. simpl.
  by apply lookup_insert_ne.
Qed.

Lemma download_keeps_other_files_witness :
  let url := "https://site.org/book/chapter-1"%string in
  let r := _download_chapter id simple_netloc simple_path
             (page_with "Chapter 1: Dawn" (repeat_string "All was quiet. " 20))
             (plain_web (mkResponse 200 "<html></html>")) url 1 None empty_cache in
  progress_files r.2 = progress_files empty_cache.
Proof.
  intros url r.
  refine (proj1 (download_keeps_other_files id simple_netloc simple_path
                   (page_with "Chapter 1: Dawn" (repeat_string "All was quiet. " 20))
                   (plain_web (mkResponse 200 "<html></html>")) url 1 None
                   empty_cache r.2 r.1 _)).
  apply surjective_pairing.
Defined.

(** X12: on a URL that does not name NovelBuddy, a page that is fetched
    and passes the anti-bot check always yields a chapter with the
    requested number and URL, whatever its title and body; an empty body
    gives a chapter with an empty body and no cache write. *)
Theorem usable_page_always_yields_chapter
    (_url_hash urlparse_netloc urlparse_path : string -> string)
    (parse : string -> Page) (w : Web) (url : string) (n : Z)
    (novel_url : option string) (cache : Cache) (p0 p : Page) :
  contains "novelbuddy" url = false ->
  (forall c, get_chapter _url_hash cache url novel_url = Some c -> valid_cached c = false) ->
  fetch_soup urlparse_netloc parse w url = Some p0 ->
  check_page urlparse_netloc parse w url p0 = Usable p ->
  exists ch cache',
    _download_chapter _url_hash urlparse_netloc urlparse_path parse w url n
      novel_url cache = (Some ch, cache')
    /\ chapter_num ch = n /\ ch_url ch = Some url
    /\ ch_title ch = chapter_title (page_h1 p) n novel_url
    /\ (page_body p = ""%string -> ch_content ch = ""%string /\ cache' = cache).
Proof.
  intros Hsite Hcache Hfetch Hcheck.
  rewrite download_uncached by done.
  unfold download_fresh. rewrite Hfetch, Hcheck. unfold read_chapter.
  rewrite Hsite, andb_false_r.
  eexists _, _. split; [reflexivity|]. simpl. split_and!; try done.
  intros Hb. rewrite Hb. simpl. done.
Qed.

Lemma usable_page_always_yields_chapter_witness :
  exists ch cache',
    _download_chapter id simple_netloc simple_path (page_with "Chapter 3" "")
      (plain_web (mkResponse 200 "<html></html>"))
      "https://site.org/book/chapter-3" 3 None empty_cache = (Some ch, cache')
    /\ chapter_num ch = 3 /\ ch_url ch = Some "https://site.org/book/chapter-3"%string
    /\ ch_title ch = chapter_title (Some "Chapter 3"%string) 3 None
    /\ (""%string = ""%string -> ch_content ch = ""%string /\ cache' = empty_cache).
Proof.
  apply (usable_page_always_yields_chapter id simple_netloc simple_path
           (page_with "Chapter 3" "") (plain_web (mkResponse 200 "<html></html>"))
           "https://site.org/book/chapter-3" 3 None empty_cache
           (mkPage "" None (Some "Chapter 3"%string) "")
           (mkPage "" None (Some "Chapter 3"%string) "")).
  - reflexivity.
  - intros c Hc. vm_compute in Hc. discriminate.
  - vm_compute. reflexivity.
  - vm_compute. reflexivity.
Defined.

(** X13: when the page shows an anti-bot message and the second fetch
    fails or shows it again, the download returns the placeholder chapter
    "[Rate limited - please try again later]" without touching the cache,
    and the coordinator records the URL as completed, not as failed. *)
Theorem rate_limited_page_counts_as_completed
    (_url_hash urlparse_netloc urlparse_path : string -> string)
    (parse : string -> Page) (w : Web) (url : string) (n : Z)
    (novel_url : option string) (cache : Cache) (p0 : Page) :
  (forall c, get_chapter _url_hash cache url novel_url = Some c -> valid_cached c = false) ->
  fetch_soup urlparse_netloc parse w url = Some p0 ->
  check_page urlparse_netloc parse w url p0 = StillLimited ->
  _download_chapter _url_hash urlparse_netloc urlparse_path parse w url n
    novel_url cache = (Some (placeholder n), cache)
  /\ forall (j : Job) (st : Collected),
       download j url n = Some (placeholder n) ->
       chapters (record_result _url_hash j (url, n) st) = chapters st ++ [placeholder n]
       /\ completed_urls (record_result _url_hash j (url, n) st)
          = completed_urls st ++ [url]
       /\ failed_urls (record_result _url_hash j (url, n) st) = failed_urls st.
Proof.
  intros Hcache Hfetch Hcheck. split.
  - rewrite download_uncached by done.
    unfold download_fresh. by rewrite Hfetch, Hcheck.
  - intros j st Hd.
    rewrite record_result_chapters, record_result_completed_urls, record_result_failed.
    unfold result_of. simpl. rewrite Hd. by rewrite app_nil_r.
Qed.

Lemma rate_limited_page_counts_as_completed_witness :
  _download_chapter id simple_netloc simple_path
    (page_with "Chapter 3" "Dear visitor, we detected abnormal activity.")
    (plain_web (mkResponse 200 "<html></html>"))
    "https://site.org/book/chapter-3" 3 None empty_cache
  = (Some (placeholder 3), empty_cache).
Proof.
  eapply (rate_limited_page_counts_as_completed id simple_netloc simple_path
            (page_with "Chapter 3" "Dear visitor, we detected abnormal activity.")
            (plain_web (mkResponse 200 "<html></html>"))
            "https://site.org/book/chapter-3" 3 None empty_cache).
  - intros c Hc. vm_compute in Hc. discriminate.
  - vm_compute. reflexivity.
  - vm_compute. reflexivity.
Defined.

(** * Further properties of the fetch ladder *)

Section LadderMore.

Variable rotate_per_attempt rotate_on_block heavy_security : bool.

(** The loop asks the network only about the attempts it makes. *)
Lemma attempts_ext net1 net2 left attempt last_blocked :
  (forall s k, (attempt <= k < attempt + left)%nat ->
     attempt_get net1 s k = attempt_get net2 s k) ->
  attempts net1 rotate_per_attempt rotate_on_block heavy_security left attempt last_blocked
  = attempts net2 rotate_per_attempt rotate_on_block heavy_security left attempt last_blocked.
Proof.
  revert attempt last_blocked.
  induction left as [|left IH]; intros attempt lb Hext; simpl; [done|].
  rewrite (Hext _ attempt) by lia.
  destruct (attempt_get net2 _ attempt) as [r|].
  - destruct (classify r); [done| |]; apply IH; intros; apply Hext; lia.
  - apply IH; intros; apply Hext; lia.
Qed.

(** What the loop returns is the answer to one of its attempts. *)
Lemma attempts_origin net left attempt last_blocked resp :
  attempts net rotate_per_attempt rotate_on_block heavy_security left attempt last_blocked
  = Some resp ->
  exists s k, (attempt <= k < attempt + left)%nat
              /\ attempt_get net s k = Answer resp /\ classify resp = Success.
Proof.
  revert attempt last_blocked.
  induction left as [|left IH]; intros attempt lb; simpl; [done|].
  destruct (attempt_get net _ attempt) as [r|] eqn:Hg.
  - destruct (classify r) eqn:Hc.
    + intros [= <-]. eexists _, attempt. split; [lia|]. by split.
    + intros H. destruct (IH _ _ H) as (s & k & Hk & ?). exists s, k. split; [lia|done].
    + intros H. destruct (IH _ _ H) as (s & k & Hk & ?). exists s, k. split; [lia|done].
  - intros H. destruct (IH _ _ H) as (s & k & Hk & ?). exists s, k. split; [lia|done].
Qed.

(** Without a successful answer the loop gives up. *)
Lemma attempts_exhausted net left attempt last_blocked :
  (forall s k r, (k < attempt + left)%nat -> attempt_get net s k = Answer r ->
     classify r <> Success) ->
  attempts net rotate_per_attempt rotate_on_block heavy_security left attempt last_blocked
  = None.
Proof.
  intros Hno.
  destruct (attempts net _ _ _ left attempt last_blocked) as [resp|] eqn:Ha; [|done].
  apply attempts_origin in Ha as (s & k & Hk & Hg & Hc).
  exfalso. apply (Hno s k resp); [lia | done | done].
Qed.

Lemma try_mirrors_exhausted net url domain mirrors :
  (forall s u r, mirror_get net s u = Answer r -> mirror_accepts r = false) ->
  try_mirrors net rotate_per_attempt heavy_security url domain mirrors = None.
Proof.
  intros Hno. induction mirrors as [|m mirrors IH]; simpl; [done|].
  destruct (contains m url); [done|].
  destruct (mirror_get net _ _) as [r|] eqn:Hg; [|done].
  by rewrite (Hno _ _ _ Hg).
Qed.

End LadderMore.

(** X14: the retry loop of [_get_with_retry] makes at most [retries]
    requests: its result depends only on the answers to the attempts
    numbered below [retries], and what it returns is the answer to one of
    these attempts, classified as a success. *)
Theorem retry_loop_is_bounded (net1 net2 : Net)
    (rotate_per_attempt rotate_on_block heavy_security : bool) (retries : nat) :
  (forall s k, (k < retries)%nat -> attempt_get net1 s k = attempt_get net2 s k) ->
  attempts net1 rotate_per_attempt rotate_on_block heavy_security retries 0 false
  = attempts net2 rotate_per_attempt rotate_on_block heavy_security retries 0 false
  /\ forall resp,
       attempts net1 rotate_per_attempt rotate_on_block heavy_security retries 0 false
       = Some resp ->
       exists s k, (k < retries)%nat /\ attempt_get net1 s k = Answer resp
                   /\ classify resp = Success.
Proof.
  intros Hext. split.
  - apply attempts_ext. intros s k Hk. apply Hext. lia.
  - intros resp Ha. apply attempts_origin in Ha as (s & k & Hk & H).
    exists s, k. split; [lia | done].
Qed.

Lemma retry_loop_is_bounded_witness :
  attempts (answering (mkResponse 503 "")) false false false 4 0 false
  = attempts (mkNet (fun _ k => if (k <? 4)%nat then Answer (mkResponse 503 "")
                                else Answer (mkResponse 200 "late"))
                    (fun _ _ => Raised))
      false false false 4 0 false.
Proof.
  apply (retry_loop_is_bounded (answering (mkResponse 503 "")) _ false false false 4).
  intros s k Hk. simpl. apply Nat.ltb_lt in Hk. by rewrite Hk.
Defined.

(** X15: when no attempt is answered with a success, and the domain names
    no site with mirrors or no mirror gives an answer that passes the
    mirror test, [_get_with_retry] returns nothing. *)
Theorem ladder_exhaustion (net : Net) (url domain : string)
    (rotate_per_attempt rotate_on_block : bool) (retries : nat) :
  (forall s k r, (k < retries)%nat -> attempt_get net s k = Answer r ->
     classify r <> Success) ->
  site_mirrors domain = []
  \/ (forall s u r, mirror_get net s u = Answer r -> mirror_accepts r = false) ->
  _get_with_retry net url domain rotate_per_attempt rotate_on_block retries = None.
Proof.
  intros Hno Hm. unfold _get_with_retry, ladder.
  rewrite attempts_exhausted by (intros s k r Hk; apply Hno; lia).
  destruct Hm as [-> | Hm]; [done|]. by apply try_mirrors_exhausted.
Qed.

Lemma ladder_exhaustion_witness :
  _get_with_retry (answering (mkResponse 429 "")) "https://site.org/book" "site.org"
    false false max_retries = None.
Proof.
  apply ladder_exhaustion.
  - intros s k r _ [= <-]. vm_compute. discriminate.
  - left. reflexivity.
Defined.

(** * Further properties of chapter numbers and links *)

Lemma is_digit_range c : is_digit c = true -> 0 <= Z.of_N (code c) - 48 <= 9.
Proof.
  unfold is_digit. rewrite andb_true_iff, !N.leb_le. lia.
Qed.

Lemma int_acc_nonneg acc d : 0 <= acc -> all_digits d = true -> 0 <= int_acc acc d.
Proof.
  revert acc. induction d as [|c d IH]; intros acc Hacc; simpl; [done|].
  rewrite andb_true_iff. intros [Hc Hd]. apply IH; [|done].
  apply is_digit_range in Hc. lia.
Qed.

Lemma digits_span_digits s : all_digits (digits_span s).1 = true.
Proof.
  induction s as [|c s IH]; simpl; [done|].
  destruct (is_digit c) eqn:Hc; [|done].
  destruct (digits_span s) as [d r]. simpl in *. by rewrite Hc, IH.
Qed.

Lemma nonempty_digits_digits s d r : nonempty_digits s = Some (d, r) -> all_digits d = true.
Proof.
  unfold nonempty_digits. pose proof (digits_span_digits s) as Hd.
  destruct (digits_span s) as [d' r']. destruct (truthy d'); [|done].
  by intros [= <- <-].
Qed.

Lemma group_number_nonneg d : all_digits d = true -> 0 <= group_number d.
Proof.
  intros Hd. unfold group_number, int_of_digits.
  destruct (truthy d && _); [by apply int_acc_nonneg | unfold NO_NUMBER; lia].
Qed.

Lemma search_origin {A} (m : string -> option A) s x :
  search m s = Some x -> exists s', m s' = Some x.
Proof.
  induction s as [|c s IH]; simpl.
  - destruct (m "") eqn:E; [intros [= <-]; eauto | done].
  - destruct (m (String c s)) eqn:E; [intros [= <-]; eauto | apply IH].
Qed.

(** X16: the number inferred from a URL or title is never negative. *)
Theorem chapter_number_nonneg (u : string) : 0 <= _extract_chapter_number u.
Proof.
  unfold _extract_chapter_number.
  destruct (search match_chapter_dash u) as [n|] eqn:H1.
  { apply search_origin in H1 as (s & Hs). unfold match_chapter_dash in Hs.
    destruct (startswith _ _); [|done].
    destruct (nonempty_digits _) as [[d r]|] eqn:Hd; [|done].
    injection Hs as <-. apply nonempty_digits_digits in Hd. by apply group_number_nonneg. }
  destruct (search match_trailing_number u) as [n|] eqn:H2.
  { apply search_origin in H2 as (s & Hs). unfold match_trailing_number in Hs.
    destruct s as [|c t]; [done|].
    destruct (Ascii.eqb c "/") eqn:Hc;
      [apply Ascii.eqb_eq in Hc; subst c | by destruct c as [[] [] [] [] [] [] [] []]].
    destruct (nonempty_digits t) as [[d r]|] eqn:Hd; [|done].
    destruct (at_end r || _); [|done].
    injection Hs as <-. apply nonempty_digits_digits in Hd. by apply group_number_nonneg. }
  destruct (search match_c_number u) as [n|] eqn:H3; [|unfold NO_NUMBER; lia].
  apply search_origin in H3 as (s & Hs). unfold match_c_number in Hs.
  destruct s as [|c [|c' t]]; [done| by destruct c as [[] [] [] [] [] [] [] []] |].
  destruct (Ascii.eqb c "/") eqn:Hc;
    [apply Ascii.eqb_eq in Hc; subst c | by destruct c as [[] [] [] [] [] [] [] []]].
  destruct (Ascii.eqb (lower_char c') "c"); [|done].
  destruct (nonempty_digits t) as [[d r]|] eqn:Hd; [|done].
  injection Hs as <-. apply nonempty_digits_digits in Hd. by apply group_number_nonneg.
Qed.

Lemma append_cons c s t : String c s +:+ t = String c (s +:+ t).
Proof. reflexivity. Qed.

Lemma append_nil t : "" +:+ t = t.
Proof. reflexivity. Qed.

Lemma digits_span_app d r :
  all_digits d = true -> no_leading_digit r = true -> digits_span (d +:+ r) = (d, r).
Proof.
  intros Hd Hr. induction d as [|c d IH]; simpl in *.
  - destruct r as [|c t]; [done|]. simpl in *.
    by destruct (is_digit c).
  - apply andb_true_iff in Hd as [Hc Hd]. by rewrite Hc, IH.
Qed.

Lemma search_here {A} (m : string -> option A) s x : m s = Some x -> search m s = Some x.
Proof. intros H. destruct s; simpl; by rewrite H. Qed.

Lemma search_cons_none {A} (m : string -> option A) c t :
  m (String c t) = None -> search m (String c t) = search m t.
Proof. intros H. simpl. by rewrite H. Qed.

Lemma digit_not_c c : is_digit c = true -> Ascii.eqb "c" (lower_char c) = false.
Proof. by destruct c as [[] [] [] [] [] [] [] []]. Qed.

Lemma digit_not_slash c : is_digit c = true -> c <> "/"%char.
Proof. by destruct c as [[] [] [] [] [] [] [] []]. Qed.

(** In a string of digits no pattern finds a chapter number. *)
Lemma search_digits_none d :
  all_digits d = true ->
  search match_chapter_dash d = None
  /\ search match_trailing_number d = None
  /\ search match_c_number d = None.
Proof.
  induction d as [|c d IH]; [done|].
  simpl all_digits. rewrite andb_true_iff. intros [Hc Hd].
  destruct (IH Hd) as (H1 & H2 & H3).
  rewrite !search_cons_none; [done|..].
  - unfold match_c_number. pose proof (digit_not_slash c Hc).
    by destruct c as [[] [] [] [] [] [] [] []].
  - unfold match_trailing_number. pose proof (digit_not_slash c Hc).
    by destruct c as [[] [] [] [] [] [] [] []].
  - unfold match_chapter_dash.
    assert (Hs : startswith "chapter" (lower (take 7 (String c d))) = false).
    { change (take 7 (String c d)) with (String c (take 6 d)).
      cbn [lower startswith]. by rewrite digit_not_c. }
    by rewrite Hs.
Qed.

Lemma heading_with_space_sentinel d :
  all_digits d = true -> _extract_chapter_number ("Chapter " +:+ d) = NO_NUMBER.
Proof.
  intros Hd. destruct (search_digits_none d Hd) as (H1 & H2 & H3).
  unfold _extract_chapter_number. rewrite !append_cons, append_nil.
  rewrite !(search_cons_none match_chapter_dash) by reflexivity. rewrite H1.
  rewrite !(search_cons_none match_trailing_number) by reflexivity. rewrite H2.
  rewrite !(search_cons_none match_c_number) by reflexivity. by rewrite H3.
Qed.

Lemma heading_with_space_mismatch d expected url :
  all_digits d = true -> expected <> 0 -> expected <> NO_NUMBER ->
  number_mismatch expected ("Chapter " +:+ d) url = true.
Proof.
  intros Hd He Hs. unfold number_mismatch, title_number.
  replace (truthy ("Chapter " +:+ d)) with true by reflexivity.
  rewrite heading_with_space_sentinel by done. unfold disagrees at 1.
  rewrite (proj2 (Z.eqb_neq expected 0) He).
  rewrite (proj2 (Z.eqb_neq NO_NUMBER expected)) by congruence.
  reflexivity.
Qed.

(** X17: the digits must follow the word "chapter" directly or after one
    hyphen or underscore.  A heading "Chapter N" with a space carries no
    number for [_extract_chapter_number], which answers the sentinel
    999999, while "chapter-N" and "chapter_N" give N (for N written with
    no more digits than [int] converts); so the mismatch test of
    [_download_chapter] flags a title "Chapter N" for every expected
    number other than 0 and 999999. *)
Theorem chapter_heading_with_space (d : string) :
  all_digits d = true ->
  _extract_chapter_number ("Chapter " +:+ d) = NO_NUMBER
  /\ (forall r, truthy d = true -> (len d <= int_max_str_digits)%nat ->
        no_leading_digit r = true ->
        _extract_chapter_number ("chapter-" +:+ d +:+ r) = int d
        /\ _extract_chapter_number ("Chapter_" +:+ d +:+ r) = int d)
  /\ (forall expected url, truthy d = true -> expected <> 0 -> expected <> NO_NUMBER ->
        number_mismatch expected ("Chapter " +:+ d) url = true).
Proof.
  intros Hd. split_and!.
  - by apply heading_with_space_sentinel.
  - intros r Ht Hl Hr.
    assert (Hn : nonempty_digits (d +:+ r) = Some (d, r)).
    { unfold nonempty_digits. by rewrite digits_span_app, Ht. }
    split; unfold _extract_chapter_number;
      rewrite (search_here match_chapter_dash _ d);
      try (by apply group_number_short);
      unfold match_chapter_dash; rewrite !append_cons, append_nil; simpl;
      by rewrite Hn.
  - intros expected url _ He Hs. by apply heading_with_space_mismatch.
Qed.

Lemma chapter_heading_with_space_witness :
  _extract_chapter_number "Chapter 12" = NO_NUMBER
  /\ _extract_chapter_number "chapter-12: Dusk" = 12
  /\ number_mismatch 12 "Chapter 12" "https://novelbuddy.com/novel/abc/chapter-12" = true.
Proof.
  destruct (chapter_heading_with_space "12" eq_refl) as (H1 & H2 & H3).
  split_and!.
  - exact H1.
  - refine (proj1 (H2 ": Dusk"%string eq_refl _ eq_refl)).
    unfold int_max_str_digits. simpl. lia.
  - apply (H3 12 "https://novelbuddy.com/novel/abc/chapter-12"%string eq_refl);
      [lia | unfold NO_NUMBER; lia].
Defined.

Lemma foldl_add_link_elem_of keep urljoin hrefs links x :
  x ∈ foldl (add_link keep urljoin) links hrefs
  <-> x ∈ links \/ exists href, href ∈ hrefs /\ keep href = true /\ urljoin href = x.
Proof.
  revert links. induction hrefs as [|href hrefs IH]; intros links; simpl.
  - split; [by left|]. intros [?|(? & ?%elem_of_nil & _)]; done.
  - rewrite IH. unfold add_link. split.
    + intros [Hin|(h0 & Hh & Hk & Hj)].
      * destruct (keep href) eqn:Hk; [|by left].
        case_bool_decide; [by left|].
        apply elem_of_app in Hin as [Hin|Hin]; [by left|].
        apply list_elem_of_singleton in Hin. right. exists href.
        split; [left | done].
      * right. exists h0. split; [by right | done].
    + intros [Hin|(h0 & Hh & Hk & Hj)].
      * left. destruct (keep href); [|done].
        case_bool_decide; [done|]. apply elem_of_app. by left.
      * apply elem_of_cons in Hh as [->|Hh].
        -- left. rewrite Hk. case_bool_decide as Hin; [by rewrite <- Hj|].
           apply elem_of_app. right. rewrite Hj. apply list_elem_of_singleton. done.
        -- right. by exists h0.
Qed.

(** X18: the link loop of [_get_chapter_links_from_html] neither loses nor
    invents a link: a URL is in its result exactly when it is the joined
    URL of an anchor that passes the test of the branch. *)
Theorem collected_links_are_the_kept_ones (keep : string -> bool)
    (urljoin : string -> string) (hrefs : list string) (x : string) :
  x ∈ collect_links keep urljoin hrefs
  <-> exists href, href ∈ hrefs /\ keep href = true /\ urljoin href = x.
Proof.
  unfold collect_links. rewrite foldl_add_link_elem_of.
  split; [intros [?%elem_of_nil|?]; done | by right].
Qed.

(** ** Further properties of titles and bodies *)

Lemma digit_not_space c : is_digit c = true -> is_space c = false.
Proof. by destruct c as [[] [] [] [] [] [] [] []]. Qed.

Lemma span_space_digits d : all_digits d = true -> span is_space d = (EmptyString, d).
Proof.
  destruct d as [|c d]; [done|]. simpl all_digits. rewrite andb_true_iff.
  intros [Hc _]. cbn [span]. by rewrite digit_not_space.
Qed.

Lemma span_digit_all d : all_digits d = true -> span is_digit d = (d, EmptyString).
Proof.
  induction d as [|c d IH]; [done|]. simpl all_digits. rewrite andb_true_iff.
  intros [Hc Hd]. cbn [span]. by rewrite Hc, IH.
Qed.

Lemma append_empty_r s : s +:+ "" = s.
Proof. induction s as [|c s IH]; [done|]. by rewrite append_cons, IH. Qed.

Lemma rstrip_digits d : all_digits d = true -> rstrip d = d.
Proof.
  induction d as [|c d IH]; [done|]. simpl all_digits. rewrite andb_true_iff.
  intros [Hc Hd]. cbn [rstrip]. by rewrite IH, digit_not_space, andb_false_r.
Qed.

Lemma rstrip_app_keep p d :
  truthy (rstrip d) = true -> rstrip (p +:+ d) = p +:+ rstrip d.
Proof.
  intros H. induction p as [|c p IH]; [done|].
  rewrite !append_cons. cbn [rstrip]. rewrite IH.
  replace (truthy (p +:+ rstrip d)) with true; [done|].
  destruct p; [by rewrite append_nil | done].
Qed.

(** The title read off a heading "Chapter N" is the heading itself. *)
Lemma chapter_title_plain d n novel_url :
  all_digits d = true -> truthy d = true ->
  (forall slug, novel_slug novel_url = Some slug ->
     startswith slug (lower ("Chapter " +:+ d)) = false) ->
  chapter_title (Some ("Chapter " +:+ d)) n novel_url = "Chapter " +:+ d.
Proof.
  intros Hd Ht Hslug. unfold chapter_title.
  assert (Hm : search match_chapter_title ("Chapter " +:+ d) = Some ("Chapter " +:+ d)).
  { apply search_here. unfold match_chapter_title.
    rewrite !append_cons, append_nil. cbn [take drop].
    replace (startswith "chapter" (lower "Chapter")) with true by reflexivity.
    cbn [span]. replace (is_space " ") with true by reflexivity.
    rewrite span_space_digits, span_digit_all by done. rewrite Ht. cbn [span].
    by rewrite !append_cons, !append_nil, append_empty_r. }
  assert (Hs : strip ("Chapter " +:+ d) = "Chapter " +:+ d).
  { unfold strip. rewrite rstrip_app_keep by by rewrite rstrip_digits.
    by rewrite rstrip_digits. }
  rewrite Hm, Hs.
  destruct (novel_slug novel_url) as [slug|] eqn:Hn; [|done].
  by rewrite (Hslug slug).
Qed.

(** X19: on a NovelBuddy URL, a page whose heading is "Chapter N" written
    with a space is always rejected, also when N is the expected number:
    the title carries no number for [_extract_chapter_number], so the
    sentinel 999999 is compared with the expected number.  The download
    returns nothing and writes nothing, unless the expected number is 0 or
    999999. *)
Theorem plain_heading_is_rejected
    (_url_hash urlparse_netloc urlparse_path : string -> string)
    (parse : string -> Page) (w : Web) (url : string) (n : Z)
    (novel_url : option string) (cache : Cache) (p0 p : Page) (d : string) :
  contains "novelbuddy" url = true ->
  (forall c, get_chapter _url_hash cache url novel_url = Some c -> valid_cached c = false) ->
  fetch_soup urlparse_netloc parse w url = Some p0 ->
  check_page urlparse_netloc parse w url p0 = Usable p ->
  page_h1 p = Some ("Chapter " +:+ d) ->
  all_digits d = true -> truthy d = true ->
  (forall slug, novel_slug novel_url = Some slug ->
     startswith slug (lower ("Chapter " +:+ d)) = false) ->
  n <> 0 -> n <> NO_NUMBER ->
  _download_chapter _url_hash urlparse_netloc urlparse_path parse w url n
    novel_url cache = (None, cache).
Proof.
  intros Hsite Hcache Hfetch Hcheck Hh1 Hd Ht Hslug Hn0 Hn9.
  rewrite download_uncached by done.
  unfold download_fresh. rewrite Hfetch, Hcheck. unfold read_chapter.
  rewrite Hh1, chapter_title_plain by done.
  by rewrite heading_with_space_mismatch, Hsite.
Qed.

Lemma plain_heading_is_rejected_witness :
  int "12" = 12
  /\ _extract_chapter_number "https://novelbuddy.com/novel/abc/chapter-12" = 12
  /\ _download_chapter id simple_netloc simple_path
       (page_with "Chapter 12" (repeat_string "All was quiet. " 20))
       (plain_web (mkResponse 200 "<html></html>"))
       "https://novelbuddy.com/novel/abc/chapter-12" 12
       (Some "https://novelbuddy.com/novel/abc"%string) empty_cache
     = (None, empty_cache).
Proof.
  split; [reflexivity|]. split; [reflexivity|].
  apply (plain_heading_is_rejected id simple_netloc simple_path
           (page_with "Chapter 12" (repeat_string "All was quiet. " 20))
           (plain_web (mkResponse 200 "<html></html>"))
           "https://novelbuddy.com/novel/abc/chapter-12" 12
           (Some "https://novelbuddy.com/novel/abc"%string) empty_cache
           (mkPage (repeat_string "All was quiet. " 20) None (Some "Chapter 12"%string)
                   (repeat_string "All was quiet. " 20))
           (mkPage (repeat_string "All was quiet. " 20) None (Some "Chapter 12"%string)
                   (repeat_string "All was quiet. " 20))
           "12").
  - vm_compute. reflexivity.
  - intros c Hc. vm_compute in Hc. discriminate.
  - vm_compute. reflexivity.
  - vm_compute. reflexivity.
  - reflexivity.
  - reflexivity.
  - reflexivity.
  - intros slug Hs. vm_compute in Hs. injection Hs as <-. vm_compute. reflexivity.
  - lia.
  - unfold NO_NUMBER. lia.
Defined.

Lemma contains_newlines_flush k c rest :
  (k <= 2)%nat -> Ascii.eqb c newline = false ->
  contains (newlines 3) rest = false ->
  contains (newlines 3) (newlines k +:+ String c rest) = false.
Proof.
  intros Hk Hc Hr.
  assert (Hc' : Ascii.eqb newline c = false) by by rewrite Ascii.eqb_sym.
  change (newlines 3) with (String newline (String newline (String newline ""))) in *.
  destruct k as [|[|[|k]]]; [| | |lia];
    cbn [newlines]; rewrite ?append_cons, append_nil;
    cbn [contains startswith]; rewrite ?Ascii.eqb_refl, Hc', Hr; reflexivity.
Qed.

Lemma squeeze_newlines_no_run s run :
  contains (newlines 3) (squeeze_newlines s run) = false.
Proof.
  revert run. induction s as [|c t IH]; intros run.
  - cbn [squeeze_newlines]. by destruct run as [|[|[|run]]].
  - cbn [squeeze_newlines]. destruct (Ascii.eqb c newline) eqn:Hc; [apply IH|].
    apply contains_newlines_flush; [|done|apply IH].
    destruct (3 <=? run)%nat eqn:Hr; [lia|]. apply Nat.leb_gt in Hr. lia.
Qed.

(** X20: the body that [_download_chapter] returns never holds three
    line feeds in a row: between two lines of text there is at most one
    empty line. *)
Theorem normalized_content_has_no_triple_newline (title : string)
    (slug : option string) (content : string) :
  contains (newlines 3) (normalize_content title slug content) = false.
Proof.
  unfold normalize_content. destruct content as [|c t]; [done|].
  cbn [truthy]. apply squeeze_newlines_no_run.
Qed.

(** ** Further properties of the cache directory *)

(** X21: the directory of a novel and the top level of the chapter cache
    are separate: [clear_novel_chapters] leaves no chapter of the novel
    and changes no top-level file, a chapter stored for the novel is not
    seen by a lookup without novel URL and the other way round (there is
    no fallback from one to the other), and an empty novel URL means the
    top level. *)
Theorem novel_directory_is_separate (_url_hash : string -> string) (cache : Cache)
    (novel_url chapter_url : string) (content : Chapter) :
  truthy novel_url = true ->
  (forall c, get_chapter _url_hash (clear_novel_chapters _url_hash cache novel_url) c
               (Some novel_url) = None)
  /\ (forall c, get_chapter _url_hash (clear_novel_chapters _url_hash cache novel_url) c None
                = get_chapter _url_hash cache c None)
  /\ (forall c, get_chapter _url_hash
                  (set_chapter _url_hash cache chapter_url content (Some novel_url)) c None
                = get_chapter _url_hash cache c None)
  /\ (forall c, get_chapter _url_hash
                  (set_chapter _url_hash cache chapter_url content None) c (Some novel_url)
                = get_chapter _url_hash cache c (Some novel_url))
  /\ (forall c, get_chapter _url_hash cache c (Some ""%string)
                = get_chapter _url_hash cache c None).
Proof.
  intros Ht. split_and!.
  - intros c. unfold get_chapter, clear_novel_chapters, chapter_file. rewrite Ht. simpl.
    apply map_lookup_filter_None. right. intros x _ Hx. simpl in Hx. by apply Hx.
  - intros c. unfold get_chapter, clear_novel_chapters, chapter_file. simpl.
    apply option_eq. intros x. rewrite map_lookup_filter_Some. simpl. tauto.
  - intros c. unfold get_chapter, set_chapter, chapter_file. rewrite Ht. simpl.
    by apply lookup_insert_ne.
  - intros c. unfold get_chapter, set_chapter, chapter_file. rewrite Ht. simpl.
    by apply lookup_insert_ne.
  - done.
Qed.

Lemma novel_directory_is_separate_witness :
  let novel := "https://site.org/book"%string in
  let ch := mkChapter "Chapter 1" "text" 1 None in
  let cache := set_chapter id empty_cache "https://site.org/book/chapter-1" ch (Some novel) in
  get_chapter id cache "https://site.org/book/chapter-1" (Some novel) = Some ch
  /\ get_chapter id cache "https://site.org/book/chapter-1" None = None
  /\ get_chapter id (clear_novel_chapters id cache novel)
       "https://site.org/book/chapter-1" (Some novel) = None.
Proof.
  intros novel ch cache.
  destruct (novel_directory_is_separate id empty_cache novel
              "https://site.org/book/chapter-1" ch eq_refl) as (_ & _ & H3 & _).
  destruct (novel_directory_is_separate id cache novel
              "https://site.org/book/chapter-1" ch eq_refl) as (H1 & _).
  split_and!.
  - vm_compute. reflexivity.
  - exact (H3 "https://site.org/book/chapter-1"%string).
  - exact (H1 "https://site.org/book/chapter-1"%string).
Defined.

Lemma contains_after_underscore b y : contains "_" (b +:+ String "_" y) = true.
Proof.
  induction b as [|c b IH].
  - rewrite append_nil. reflexivity.
  - rewrite append_cons. cbn [contains]. rewrite IH. apply orb_true_r.
Qed.

(** A name [a_x] in which [x] holds no underscore splits in one way only. *)
Lemma underscore_split a b x y :
  contains "_" x = false -> contains "_" y = false ->
  a +:+ String "_" x = b +:+ String "_" y -> a = b /\ x = y.
Proof.
  intros Hx Hy. revert b. induction a as [|c a IH]; intros [|c' b] Heq.
  - rewrite !append_nil in Heq. by injection Heq.
  - rewrite append_nil, append_cons in Heq. injection Heq as _ Heq.
    rewrite Heq, contains_after_underscore in Hx. done.
  - rewrite append_nil, append_cons in Heq. injection Heq as _ Heq.
    rewrite <- Heq, contains_after_underscore in Hy. done.
  - rewrite !append_cons in Heq. injection Heq as -> Heq.
    destruct (IH b Heq) as [-> ->]. done.
Qed.

(** X22: progress files do not collide, for user ids that name a file
    (no path separator).  As a digest holds no underscore, the file name
    [<user>_<digest>] determines the user id and the digest, also when the
    user id holds underscores; so saving or clearing the progress of one
    user and novel leaves the record of every other pair as it was, a
    record saved is the record read, and a record cleared is gone. *)
Theorem progress_files_do_not_collide (_url_hash : string -> string) (cache : Cache)
    (user1 user2 novel1 novel2 : string) (progress : Progress) :
  file_name user1 = true ->
  file_name user2 = true ->
  contains "_" (_url_hash novel1) = false ->
  contains "_" (_url_hash novel2) = false ->
  user1 <> user2 \/ _url_hash novel1 <> _url_hash novel2 ->
  progress_key _url_hash user1 novel1 <> progress_key _url_hash user2 novel2
  /\ get_download_progress _url_hash
       (save_download_progress _url_hash cache user1 novel1 progress) user2 novel2
     = get_download_progress _url_hash cache user2 novel2
  /\ get_download_progress _url_hash
       (clear_download_progress _url_hash cache user1 novel1) user2 novel2
     = get_download_progress _url_hash cache user2 novel2
  /\ get_download_progress _url_hash
       (save_download_progress _url_hash cache user1 novel1 progress) user1 novel1
     = Some progress
  /\ get_download_progress _url_hash
       (clear_download_progress _url_hash
          (save_download_progress _url_hash cache user1 novel1 progress) user1 novel1)
       user1 novel1
     = None.
Proof.
  intros Hf1 Hf2 H1 H2 Hne.
  assert (Hkey : progress_key _url_hash user1 novel1 <> progress_key _url_hash user2 novel2).
  { unfold progress_key. intros Heq.
    destruct (underscore_split _ _ _ _ H1 H2 Heq) as [Hu Hh]. by destruct Hne. }
  unfold get_download_progress, save_download_progress, clear_download_progress.
  rewrite Hf1, Hf2. simpl.
  split_and!; [done|..].
  - by apply lookup_insert_ne.
  - by apply lookup_delete_ne.
  - apply lookup_insert_eq.
  - apply lookup_delete_eq.
Qed.

Lemma progress_files_do_not_collide_witness :
  let pr := mkProgress "T" 1 (Some 5) [] [] in_progress None in
  progress_key id "7_8" "abc" <> progress_key id "7" "8abc"
  /\ get_download_progress id (save_download_progress id empty_cache "7_8" "abc" pr)
       "7" "8abc" = None.
Proof.
  intros pr.
  destruct (progress_files_do_not_collide id empty_cache "7_8" "7" "abc" "8abc" pr
              eq_refl eq_refl eq_refl eq_refl) as (H1 & H2 & _).
  - left. discriminate.
  - split; [exact H1 | exact H2].
Defined.

(** ** Properties of the entries with a time to live *)

Lemma is_json_suffix h : is_json (h +:+ ".json") = true.
Proof.
  induction h as [|c h IH]; [done|].
  rewrite append_cons. cbn [is_json]. rewrite IH. apply orb_true_r.
Qed.

(** X23: a search is served from the cache until it expires: after
    [set_search_results], [get_search_results] for the same query and
    source answers the stored results as long as the age of the file does
    not exceed 3600 seconds, and nothing afterwards although the file is
    still there; a search stored without source is the one read for the
    source "all" and for an empty source; and storing a search changes the
    answer for no search with another file name. *)
Theorem cached_search_is_served_until_it_expires (_url_hash : string -> string)
    (Stamp : Type) (exceeds : Stamp -> Stamp -> Z -> bool) (R : Type)
    (search_dir : gmap string (Stamp * list R)) (mtime now : Stamp)
    (query : string) (results : list R) (source : option string) :
  get_search_results _url_hash exceeds
    (set_search_results _url_hash search_dir mtime query results source) now query source
  = (if exceeds now mtime 3600 then None else Some results)
  /\ get_search_results _url_hash exceeds search_dir now query (Some "all"%string)
     = get_search_results _url_hash exceeds search_dir now query None
  /\ get_search_results _url_hash exceeds search_dir now query (Some ""%string)
     = get_search_results _url_hash exceeds search_dir now query None
  /\ (forall query' source',
        search_file _url_hash query' source' <> search_file _url_hash query source ->
        get_search_results _url_hash exceeds
          (set_search_results _url_hash search_dir mtime query results source)
          now query' source'
        = get_search_results _url_hash exceeds search_dir now query' source').
Proof.
  split_and!.
  - unfold get_search_results, set_search_results. cbv zeta.
    rewrite lookup_insert_eq. simpl. by destruct (exceeds now mtime 3600).
  - done.
  - done.
  - intros query' source' Hne. unfold get_search_results, set_search_results.
    by rewrite lookup_insert_ne.
Qed.

Lemma unlink_expired_lookup {Stamp V} (exceeds : Stamp -> Stamp -> Z -> bool)
    (ttl : option Z) (now_at : string -> Stamp) (dir : gmap string (Stamp * V)) f :
  unlink_expired exceeds ttl now_at dir !! f
  = match dir !! f with
    | Some e => if is_json f && _is_expired exceeds (Some e) ttl (now_at f)
                then None else Some e
    | None => None
    end.
Proof.
  unfold unlink_expired. destruct (dir !! f) as [e|] eqn:Hf.
  - destruct (is_json f && _) eqn:Hx.
    + apply map_lookup_filter_None. right. intros e' He' Hk. simpl in Hk.
      rewrite Hf in He'. injection He' as <-.
      apply andb_true_iff in Hx. tauto.
    + apply map_lookup_filter_Some. split; [done|]. simpl. intros [H1 H2].
      by rewrite H1, H2 in Hx.
  - apply map_lookup_filter_None. by left.
Qed.

(** X24: [clear_expired] removes a file of the search directory exactly
    when its age exceeds 3600 seconds at the moment it is tested, and a
    file of the novel directory exactly when its age exceeds 86400
    seconds; it adds nothing.  It is not seen by readers: if a file that
    was expired when tested is still expired at a later reading of the
    clock, [get_search_results] answers at that time what it would have
    answered without the clean-up. *)
Theorem clear_expired_drops_only_expired (_url_hash : string -> string)
    (Stamp : Type) (exceeds : Stamp -> Stamp -> Z -> bool) (R I : Type)
    (now_search now_novels : string -> Stamp)
    (search_dir : gmap string (Stamp * list R)) (novels_dir : gmap string (Stamp * I))
    (now : Stamp) (query : string) (source : option string) :
  let cleared := clear_expired exceeds now_search now_novels (search_dir, novels_dir) in
  cleared.1 ⊆ search_dir /\ cleared.2 ⊆ novels_dir
  /\ (forall f mtime r, search_dir !! f = Some (mtime, r) -> is_json f = true ->
        (cleared.1 !! f = None <-> exceeds (now_search f) mtime 3600 = true))
  /\ (forall f mtime i, novels_dir !! f = Some (mtime, i) -> is_json f = true ->
        (cleared.2 !! f = None <-> exceeds (now_novels f) mtime 86400 = true))
  /\ ((forall mtime r,
         search_dir !! search_file _url_hash query source = Some (mtime, r) ->
         exceeds (now_search (search_file _url_hash query source)) mtime 3600 = true ->
         exceeds now mtime 3600 = true) ->
      get_search_results _url_hash exceeds cleared.1 now query source
      = get_search_results _url_hash exceeds search_dir now query source).
Proof.
  intros cleared. unfold cleared, clear_expired. cbn [fst snd].
  split_and!.
  - apply map_filter_subseteq.
  - apply map_filter_subseteq.
  - intros f mtime r Hf Hj. rewrite unlink_expired_lookup, Hf, Hj. simpl.
    by destruct (exceeds (now_search f) mtime 3600).
  - intros f mtime i Hf Hj. rewrite unlink_expired_lookup, Hf, Hj. simpl.
    by destruct (exceeds (now_novels f) mtime 86400).
  - intros Hlater. unfold get_search_results. rewrite unlink_expired_lookup.
    destruct (search_dir !! search_file _url_hash query source) as [[mtime r]|] eqn:Hf;
      [|done].
    assert (Hj : is_json (search_file _url_hash query source) = true)
      by apply is_json_suffix.
    rewrite Hj. simpl.
    destruct (exceeds (now_search _) mtime 3600) eqn:Hx; [|done].
    simpl. by rewrite (Hlater mtime r eq_refl Hx).
Qed.

Lemma clear_expired_drops_only_expired_witness :
  let dir : gmap string (Z * list string) :=
    set_search_results id (set_search_results id ∅ 100 "old" ["a"]%string None)
      5000 "new" ["b"]%string None in
  let cleared :=
    clear_expired seconds_exceed (fun _ => 6000) (fun _ => 6000)
      (dir, (∅ : gmap string (Z * unit))) in
  cleared.1 !! search_file id "old" None = None
  /\ get_search_results id seconds_exceed cleared.1 7000 "new" None = Some ["b"]%string
  /\ get_search_results id seconds_exceed cleared.1 7000 "old" None
     = get_search_results id seconds_exceed dir 7000 "old" None.
Proof.
  intros dir cleared.
  destruct (clear_expired_drops_only_expired id Z seconds_exceed string unit
              (fun _ => 6000) (fun _ => 6000) dir ∅ 7000 "old" None)
    as (_ & _ & H3 & _ & H5).
  split_and!.
  - apply (H3 _ 100 ["a"]%string); [reflexivity | reflexivity | reflexivity].
  - vm_compute. reflexivity.
  - apply H5. intros mtime r Hf _.
    assert (Hm : mtime = 100) by (vm_compute in Hf; congruence).
    subst mtime. reflexivity.
Defined.

(** ** Chapters that are not cached *)

Lemma get_chapter_after_stores (_url_hash : string -> string) (fetch : string -> Chapter)
    (novel_url : option string) (cache : Cache) (stored : list string) (url : string) :
  get_chapter _url_hash
    (foldr (fun u c => set_chapter _url_hash c u (fetch u) novel_url) cache stored)
    url novel_url = None ->
  (url ∉ stored) /\ get_chapter _url_hash cache url novel_url = None.
Proof.
  induction stored as [|u stored IH]; simpl.
  - intros H. split; [apply not_elem_of_nil | done].
  - unfold get_chapter at 1, set_chapter at 1. simpl. intros H.
    apply lookup_insert_None in H as [H Hne].
    destruct (IH H) as [Hnotin Hc]. split; [|done].
    apply not_elem_of_cons. split; [|done]. intros ->. done.
Qed.

(** X25: [get_uncached_chapters] lists, in the order given, exactly the
    URLs for which [get_chapter] finds no file; once a chapter has been
    stored for each URL it listed, it lists nothing. *)
Theorem uncached_chapters_are_the_missing_ones (_url_hash : string -> string)
    (cache : Cache) (chapter_urls : list string) (novel_url : option string)
    (fetch : string -> Chapter) :
  (forall url, url ∈ get_uncached_chapters _url_hash cache chapter_urls novel_url
               <-> url ∈ chapter_urls
                   /\ get_chapter _url_hash cache url novel_url = None)
  /\ get_uncached_chapters _url_hash cache chapter_urls novel_url `sublist_of` chapter_urls
  /\ get_uncached_chapters _url_hash
       (foldr (fun u c => set_chapter _url_hash c u (fetch u) novel_url) cache
          (get_uncached_chapters _url_hash cache chapter_urls novel_url))
       chapter_urls novel_url
     = [].
Proof.
  assert (Hin : forall c url, url ∈ get_uncached_chapters _url_hash c chapter_urls novel_url
               <-> url ∈ chapter_urls /\ get_chapter _url_hash c url novel_url = None).
  { intros c url. unfold get_uncached_chapters.
    rewrite list_elem_of_filter. tauto. }
  split_and!.
  - apply Hin.
  - apply sublist_filter.
  - apply elem_of_nil_inv. intros url Hurl.
    apply Hin in Hurl as [Hu Hnone].
    apply get_chapter_after_stores in Hnone as [Hnotin Hc].
    apply Hnotin, Hin. done.
Qed.

(** ** Properties of the chapter range typed by the user *)

Lemma digits_only_digits s : all_digits (digits_only s) = true.
Proof.
  induction s as [|c s IH]; [done|]. cbn [digits_only].
  destruct (is_digit c) eqn:Hc; [|done]. cbn [all_digits]. by rewrite Hc, IH.
Qed.

Lemma int_of_digits_nonneg d n :
  all_digits d = true -> int_of_digits d = Some n -> 0 <= n.
Proof.
  unfold int_of_digits. intros Hd. destruct (truthy d && _); [|done].
  intros [= <-]. by apply int_acc_nonneg.
Qed.

Lemma range_ok_all : range_ok (1, None).
Proof. unfold range_ok. simpl. split_and!; [lia | done | done]. Qed.

Lemma int_pair_ok a b r :
  all_digits a = true -> all_digits b = true -> int_pair a b = Some r -> range_ok r.
Proof.
  unfold int_pair. intros Ha Hb.
  destruct (int_of_digits a) as [x|] eqn:Hx; [|done].
  destruct (int_of_digits b) as [y|] eqn:Hy; [|done].
  intros [= <-]. unfold range_ok. simpl. split_and!.
  - by apply (int_of_digits_nonneg a).
  - intros e [= <-]. by apply (int_of_digits_nonneg b).
  - done.
Qed.

Lemma range_with_to_ok u r : range_with_to u = Some r -> range_ok r.
Proof.
  unfold range_with_to. destruct (contains " to " u); [|done].
  destruct (stripped_parts _) as [|a [|b [|]]]; try done.
  destruct (int_pair _ _) as [r'|] eqn:Hp; intros [= <-].
  - eapply int_pair_ok; [| |done]; apply digits_only_digits.
  - apply range_ok_all.
Qed.

Lemma range_with_space_ok u r : range_with_space u = Some r -> range_ok r.
Proof.
  unfold range_with_space. destruct (_ && _); [|done].
  destruct (stripped_parts _) as [|a [|b [|]]]; try done.
  intros Hp. eapply int_pair_ok; [| |done]; apply digits_only_digits.
Qed.

Lemma range_with_dash_ok u r : range_with_dash u = Some r -> range_ok r.
Proof.
  unfold range_with_dash. destruct (contains "-" u); [|done].
  destruct (List.filter truthy _) as [|a [|b [|]]] eqn:Hf; try done.
  assert (Hall : Forall (fun s => all_digits s = true) [a; b]).
  { rewrite <- Hf. apply Forall_forall. intros s Hs.
    apply list_elem_of_In, filter_In in Hs as [Hs _].
    apply list_elem_of_In, list_elem_of_fmap in Hs as (x & -> & _).
    apply digits_only_digits. }
  apply Forall_cons in Hall as [Ha Hall]. apply Forall_cons in Hall as [Hb _].
  destruct (int_pair a b) as [r'|] eqn:Hp; intros [= <-].
  - by apply (int_pair_ok a b).
  - apply range_ok_all.
Qed.

Lemma single_number_ok u r : single_number u = Some r -> range_ok r.
Proof.
  unfold single_number. destruct (truthy _); [|done].
  destruct (int_of_digits _) as [n|] eqn:Hn; [|done]. intros [= <-].
  unfold range_ok. simpl. split_and!; [lia| |done].
  intros e [= <-]. eapply int_of_digits_nonneg; [|done]. apply digits_only_digits.
Qed.

(** X26: whatever the user types, [_parse_chapter_range] returns a first
    chapter and a last chapter that are not negative, and a range without
    a last chapter always starts at chapter 1: the only requests with an
    open end are the defaults (1, None). *)
Theorem parsed_range_is_never_negative (user_input : string) :
  0 <= (_parse_chapter_range user_input).1
  /\ (forall chapter_end, (_parse_chapter_range user_input).2 = Some chapter_end ->
        0 <= chapter_end)
  /\ ((_parse_chapter_range user_input).2 = None ->
      (_parse_chapter_range user_input).1 = 1).
Proof.
  change (range_ok (_parse_chapter_range user_input)).
  unfold _parse_chapter_range. cbv zeta.
  destruct (_ || _); [apply range_ok_all|].
  destruct (range_with_to _) as [r|] eqn:H1; [by apply range_with_to_ok in H1|].
  destruct (range_with_space _) as [r|] eqn:H2; [by apply range_with_space_ok in H2|].
  destruct (range_with_dash _) as [r|] eqn:H3; [by apply range_with_dash_ok in H3|].
  destruct (single_number _) as [r|] eqn:H4; [by apply single_number_ok in H4|].
  apply range_ok_all.
Qed.

Lemma all_digits_chars d : all_digits d = all_chars is_digit d.
Proof. induction d as [|c d IH]; [done|]. simpl. by rewrite IH. Qed.

Lemma all_chars_impl (p q : ascii -> bool) s :
  (forall c, p c = true -> q c = true) -> all_chars p s = true -> all_chars q s = true.
Proof.
  intros Hpq. induction s as [|c s IH]; [done|]. simpl.
  rewrite !andb_true_iff. intros [Hc Hs]. split; [by apply Hpq | by apply IH].
Qed.

Lemma all_chars_app p a b : all_chars p (a +:+ b) = all_chars p a && all_chars p b.
Proof.
  induction a as [|c a IH]; [done|].
  rewrite append_cons. simpl. by rewrite IH, andb_assoc.
Qed.

Lemma contains_absent c' p s :
  all_chars (fun c => negb (Ascii.eqb c' c)) s = true -> contains (String c' p) s = false.
Proof.
  induction s as [|c s IH]; [done|]. simpl all_chars.
  rewrite andb_true_iff, negb_true_iff. intros [Hc Hs].
  cbn [contains startswith]. by rewrite Hc, IH.
Qed.

Lemma contains_here sep a b : contains sep (a +:+ sep +:+ b) = true.
Proof.
  assert (Hs : forall x, startswith sep (sep +:+ x) = true).
  { intros x. induction sep as [|c sep IH]; [done|].
    rewrite append_cons. cbn [startswith]. by rewrite Ascii.eqb_refl. }
  induction a as [|c a IH].
  - rewrite append_nil. destruct (sep +:+ b) eqn:Heq; simpl;
      rewrite <- ?Heq, Hs; done.
  - rewrite append_cons. cbn [contains]. rewrite IH. apply orb_true_r.
Qed.

Lemma lower_fixed s :
  all_chars (fun c => Ascii.eqb (lower_char c) c) s = true -> lower s = s.
Proof.
  induction s as [|c s IH]; [done|]. simpl all_chars.
  rewrite andb_true_iff. intros [Hc Hs]. apply Ascii.eqb_eq in Hc.
  cbn [lower]. by rewrite Hc, IH.
Qed.

Lemma lstrip_digit c t : is_digit c = true -> lstrip (String c t) = String c t.
Proof. intros Hc. cbn [lstrip]. by rewrite digit_not_space. Qed.

(** A text that begins and ends with a digit is left as it is by [strip]. *)
Lemma strip_between_digits c p d :
  is_digit c = true -> all_digits d = true -> truthy d = true ->
  strip (String c p +:+ d) = String c p +:+ d.
Proof.
  intros Hc Hd Ht. unfold strip.
  rewrite rstrip_app_keep by by rewrite rstrip_digits.
  rewrite rstrip_digits by done. rewrite append_cons. by apply lstrip_digit.
Qed.

Lemma strip_digits d : all_digits d = true -> strip d = d.
Proof.
  intros Hd. unfold strip. rewrite rstrip_digits by done.
  destruct d as [|c d]; [done|]. simpl in Hd. apply andb_true_iff in Hd as [Hc _].
  by apply lstrip_digit.
Qed.

Lemma digits_only_fixed d : all_digits d = true -> digits_only d = d.
Proof.
  induction d as [|c d IH]; [done|]. simpl all_digits.
  rewrite andb_true_iff. intros [Hc Hd]. cbn [digits_only]. by rewrite Hc, IH.
Qed.

Lemma int_of_digits_some d :
  truthy d = true -> (len d <= int_max_str_digits)%nat -> int_of_digits d = Some (int d).
Proof.
  intros Ht Hl. unfold int_of_digits. rewrite Ht.
  by rewrite (proj2 (Nat.leb_le _ _) Hl).
Qed.

Lemma digit_lower_fixed c : is_digit c = true -> Ascii.eqb (lower_char c) c = true.
Proof. by destruct c as [[] [] [] [] [] [] [] []]. Qed.

Lemma digit_not_letter_a c : is_digit c = true -> Ascii.eqb c "a" = false.
Proof. by destruct c as [[] [] [] [] [] [] [] []]. Qed.

Lemma digit_not_hyphen c : is_digit c = true -> negb (Ascii.eqb "-" c) = true.
Proof. by destruct c as [[] [] [] [] [] [] [] []]. Qed.

Lemma digit_not_blank c : is_digit c = true -> negb (Ascii.eqb " " c) = true.
Proof. by destruct c as [[] [] [] [] [] [] [] []]. Qed.

Lemma append_assoc_str x y z : (x +:+ y) +:+ z = x +:+ (y +:+ z).
Proof. induction x as [|c x IH]; [done|]. by rewrite !append_cons, IH. Qed.

Lemma append_snoc cur c a : (cur +:+ String c "") +:+ a = cur +:+ String c a.
Proof. induction cur as [|x cur IH]; [done|]. by rewrite !append_cons, IH. Qed.

(** Digits are read into the current part when the separator begins with
    a character that is not a digit. *)
Lemma split_from_digits c' p a rest cur :
  is_digit c' = false -> all_digits a = true ->
  split_from (String c' p) (a +:+ rest) cur 0
  = split_from (String c' p) rest (cur +:+ a) 0.
Proof.
  intros Hsep. revert cur. induction a as [|c a IH]; intros cur Ha.
  - by rewrite append_nil, append_empty_r.
  - simpl in Ha. apply andb_true_iff in Ha as [Hc Ha].
    rewrite append_cons. cbn [split_from startswith].
    replace (Ascii.eqb c' c) with false.
    + rewrite IH by done. by rewrite append_snoc.
    + symmetry. apply Ascii.eqb_neq. intros ->. by rewrite Hc in Hsep.
Qed.

Lemma split_from_digits_end c' p b cur :
  is_digit c' = false -> all_digits b = true ->
  split_from (String c' p) b cur 0 = [cur +:+ b].
Proof.
  intros Hsep Hb. rewrite <- (append_empty_r b) at 1.
  by rewrite split_from_digits.
Qed.

Section RangeFormats.

Variables a b : string.
Hypothesis a_digits : all_digits a = true.
Hypothesis b_digits : all_digits b = true.
Hypothesis a_given : truthy a = true.
Hypothesis b_given : truthy b = true.
Hypothesis a_short : (len a <= int_max_str_digits)%nat.
Hypothesis b_short : (len b <= int_max_str_digits)%nat.

Lemma int_pair_digits : int_pair a b = Some (int a, Some (int b)).
Proof. unfold int_pair. by rewrite !int_of_digits_some. Qed.

Lemma stripped_parts_digits : stripped_parts [a; b] = [a; b].
Proof.
  unfold stripped_parts. simpl. rewrite !strip_digits by done.
  by rewrite a_given, b_given.
Qed.

Lemma not_all_keyword r t : String.eqb (a +:+ r) (String "a" t) = false.
Proof.
  destruct a as [|c a']; [done|]. simpl in a_digits.
  apply andb_true_iff in a_digits as [Hc _].
  rewrite append_cons. simpl. by rewrite digit_not_letter_a.
Qed.

Lemma single_number_form : _parse_chapter_range a = (1, Some (int a)).
Proof.
  assert (Hsp : all_chars (fun c => negb (Ascii.eqb " " c)) a = true).
  { rewrite all_digits_chars in a_digits.
    by apply (all_chars_impl is_digit); [apply digit_not_blank|]. }
  assert (Hhy : all_chars (fun c => negb (Ascii.eqb "-" c)) a = true).
  { rewrite all_digits_chars in a_digits.
    by apply (all_chars_impl is_digit); [apply digit_not_hyphen|]. }
  assert (Hlo : lower a = a).
  { apply lower_fixed. rewrite all_digits_chars in a_digits.
    by apply (all_chars_impl is_digit); [apply digit_lower_fixed|]. }
  unfold _parse_chapter_range. cbv zeta. rewrite strip_digits, Hlo by done.
  rewrite <- (append_empty_r a) at 1 2. rewrite !not_all_keyword.
  unfold range_with_to, range_with_space, range_with_dash, single_number.
  rewrite !contains_absent by done. cbn [andb]. cbv zeta.
  by rewrite digits_only_fixed, a_given, int_of_digits_some.
Qed.

Lemma hyphen_form : _parse_chapter_range (a +:+ "-" +:+ b) = (int a, Some (int b)).
Proof.
  set (u := a +:+ "-" +:+ b).
  assert (Hdd : all_chars (fun c => is_digit c || Ascii.eqb c "-") u = true).
  { unfold u. rewrite !all_chars_app. rewrite all_digits_chars in a_digits, b_digits.
    rewrite (all_chars_impl is_digit _ a), (all_chars_impl is_digit _ b); try done;
      intros c Hc; by rewrite Hc. }
  assert (Hstrip : strip u = u).
  { unfold u. destruct a as [|c a'] eqn:Ea; [done|]. simpl in a_digits.
    apply andb_true_iff in a_digits as [Hc _].
    rewrite append_cons.
    change (String c (a' +:+ "-" +:+ b)) with (String c (a' +:+ String "-" b)).
    rewrite <- (append_snoc a' "-" b), <- append_cons.
    by apply strip_between_digits. }
  assert (Hlo : lower u = u).
  { apply lower_fixed. revert Hdd. apply all_chars_impl. intros c.
    by destruct c as [[] [] [] [] [] [] [] []]. }
  assert (Hsp : all_chars (fun c => negb (Ascii.eqb " " c)) u = true).
  { revert Hdd. apply all_chars_impl. intros c.
    by destruct c as [[] [] [] [] [] [] [] []]. }
  assert (Hsplit : split "-" u = [a; b]).
  { unfold split, u. rewrite split_from_digits by done. rewrite append_nil.
    change ("-" +:+ b) with (String "-" b). cbn [split_from startswith len String.length].
    rewrite Ascii.eqb_refl. simpl Nat.sub.
    by rewrite split_from_digits_end. }
  unfold _parse_chapter_range. cbv zeta. rewrite Hstrip, Hlo.
  unfold u at 1 2. rewrite !not_all_keyword. fold u.
  unfold range_with_to, range_with_space, range_with_dash.
  rewrite !contains_absent by done. cbn [andb].
  unfold u at 1. rewrite contains_here. fold u.
  rewrite Hsplit, stripped_parts_digits.
  simpl fmap. rewrite !digits_only_fixed by done. simpl List.filter.
  rewrite a_given, b_given. by rewrite int_pair_digits.
Qed.

Lemma to_form : _parse_chapter_range (a +:+ " to " +:+ b) = (int a, Some (int b)).
Proof.
  set (u := a +:+ " to " +:+ b).
  assert (Hch : all_chars (fun c => is_digit c || Ascii.eqb c " " || Ascii.eqb c "t"
                                    || Ascii.eqb c "o") u = true).
  { unfold u. rewrite !all_chars_app. rewrite all_digits_chars in a_digits, b_digits.
    rewrite (all_chars_impl is_digit _ a), (all_chars_impl is_digit _ b); try done;
      intros c Hc; by rewrite Hc. }
  assert (Hstrip : strip u = u).
  { unfold u. destruct a as [|c a'] eqn:Ea; [done|]. simpl in a_digits.
    apply andb_true_iff in a_digits as [Hc _].
    rewrite <- append_assoc_str, append_cons.
    by apply strip_between_digits. }
  assert (Hlo : lower u = u).
  { apply lower_fixed. revert Hch. apply all_chars_impl. intros c.
    by destruct c as [[] [] [] [] [] [] [] []]. }
  assert (Hsplit : split " to " u = [a; b]).
  { unfold split, u. rewrite split_from_digits by done. rewrite append_nil.
    rewrite !append_cons, append_nil.
    cbn [split_from startswith len String.length Nat.sub].
    rewrite !Ascii.eqb_refl.
    by rewrite split_from_digits_end. }
  unfold _parse_chapter_range. cbv zeta. rewrite Hstrip, Hlo.
  unfold u at 1 2. rewrite !not_all_keyword. fold u.
  unfold range_with_to.
  unfold u at 1. rewrite contains_here. fold u.
  rewrite Hsplit, stripped_parts_digits.
  rewrite !digits_only_fixed by done. by rewrite int_pair_digits.
Qed.

End RangeFormats.

(** X27: the formats that [_parse_chapter_range] reads.  For numbers a
    and b written with at most 4300 digits, "a" asks for chapters 1 to a,
    and both "a-b" and "a to b" ask for chapters a to b; the two numbers
    are taken as they are, so "0 to 10" starts at chapter 0 and the last
    chapter may lie before the first. *)
Theorem chapter_range_formats (a b : string) :
  all_digits a = true -> all_digits b = true ->
  truthy a = true -> truthy b = true ->
  (len a <= int_max_str_digits)%nat -> (len b <= int_max_str_digits)%nat ->
  _parse_chapter_range a = (1, Some (int a))
  /\ _parse_chapter_range (a +:+ "-" +:+ b) = (int a, Some (int b))
  /\ _parse_chapter_range (a +:+ " to " +:+ b) = (int a, Some (int b)).
Proof.
  intros Ha Hb Hta Htb Hla Hlb. split_and!.
  - by apply single_number_form.
  - by apply hyphen_form.
  - by apply to_form.
Qed.

Lemma chapter_range_formats_witness :
  _parse_chapter_range "0" = (1, Some 0)
  /\ _parse_chapter_range "0-10" = (0, Some 10)
  /\ _parse_chapter_range "0 to 10" = (0, Some 10).
Proof.
  apply (chapter_range_formats "0" "10"); try reflexivity.
  - unfold int_max_str_digits. simpl. lia.
  - unfold int_max_str_digits. simpl. lia.
Defined.

(** ** Properties of the search results *)

Lemma insert_desc_perm {A} (key : A -> Q) x l : Permutation (insert_desc key x l) (x :: l).
Proof.
  induction l as [|y l IH]; simpl; [done|].
  destruct (Qle_bool (key y) (key x)); [done|].
  rewrite IH. apply perm_swap.
Qed.

Lemma sorted_desc_perm {A} (key : A -> Q) l : Permutation (sorted_desc key l) l.
Proof.
  induction l as [|x l IH]; simpl; [done|].
  rewrite insert_desc_perm. by constructor.
Qed.

Lemma insert_desc_sorted {A} (key : A -> Q) x l :
  StronglySorted (fun a b => (key b <= key a)%Q) l ->
  StronglySorted (fun a b => (key b <= key a)%Q) (insert_desc key x l).
Proof.
  induction l as [|y l IH]; intros Hs; simpl.
  - repeat constructor.
  - apply StronglySorted_inv in Hs as [Hs Hy].
    destruct (Qle_bool (key y) (key x)) eqn:Hle.
    + apply Qle_bool_iff in Hle. constructor; [by constructor|].
      constructor; [done|]. eapply Forall_impl; [exact Hy|].
      intros z Hz. simpl in Hz. by apply (Qle_trans _ (key y)).
    + constructor; [by apply IH|].
      assert (Hlt : (key x <= key y)%Q).
      { apply Qlt_le_weak, Qnot_le_lt. intros H.
        apply Qle_bool_iff in H. by rewrite H in Hle. }
      rewrite insert_desc_perm. by constructor.
Qed.

Lemma sorted_desc_sorted {A} (key : A -> Q) l :
  StronglySorted (fun a b => (key b <= key a)%Q) (sorted_desc key l).
Proof.
  induction l as [|x l IH]; simpl; [constructor|]. by apply insert_desc_sorted.
Qed.

Section SearchMore.

Variable clean : string -> string.
Variable words : string -> gset string.
Variable normalized : string -> string.
Variable site : string -> string.

Lemma consider_invariant query_words results st r :
  r ∈ results ->
  NoDup ((hit_url ∘ fst) <$> unique_results st) ->
  (forall u, u ∈ seen_urls st <-> u ∈ (hit_url ∘ fst) <$> unique_results st) ->
  Forall (kept_from clean words query_words results) (unique_results st) ->
  let st' := consider clean words normalized site query_words st r in
  NoDup ((hit_url ∘ fst) <$> unique_results st')
  /\ (forall u, u ∈ seen_urls st' <-> u ∈ (hit_url ∘ fst) <$> unique_results st')
  /\ Forall (kept_from clean words query_words results) (unique_results st').
Proof.
  intros Hr Hnd Hseen Hall. unfold consider.
  destruct (relevant _ _ _ r) eqn:Hrel; [|done].
  case_bool_decide as Hu; [done|]. case_bool_decide as Hk; [done|].
  cbn [unique_results seen_urls]. rewrite fmap_app. simpl. split_and!.
  - apply NoDup_app. split_and!; [done| |apply NoDup_singleton].
    intros u Hin ->%list_elem_of_singleton. apply Hu, Hseen, Hin.
  - intros u. rewrite elem_of_union, elem_of_singleton, elem_of_app,
      list_elem_of_singleton, Hseen. tauto.
  - apply Forall_app. split; [done|]. constructor; [|done].
    exists r. done.
Qed.

Lemma foldl_consider_invariant query_words results rs st :
  (forall r, r ∈ rs -> r ∈ results) ->
  NoDup ((hit_url ∘ fst) <$> unique_results st) ->
  (forall u, u ∈ seen_urls st <-> u ∈ (hit_url ∘ fst) <$> unique_results st) ->
  Forall (kept_from clean words query_words results) (unique_results st) ->
  let st' := foldl (consider clean words normalized site query_words) st rs in
  NoDup ((hit_url ∘ fst) <$> unique_results st')
  /\ Forall (kept_from clean words query_words results) (unique_results st').
Proof.
  revert st. induction rs as [|r rs IH]; intros st Hrs Hnd Hseen Hall; simpl; [done|].
  destruct (consider_invariant query_words results st r) as (H1 & H2 & H3); try done.
  { apply Hrs. by left. }
  apply IH; try done. intros r' Hr'. apply Hrs. by right.
Qed.

End SearchMore.

(** X28: the list of search results holds no URL twice, is ordered by
    decreasing relevance, and holds only results that a site gave: each
    one has a URL and a title, its title is not one of the generic titles,
    shares a word with the query, and is returned cleaned. *)
Theorem search_results_are_distinct_and_ranked (clean : string -> string)
    (words : string -> gset string) (normalized site : string -> string)
    (query : string) (results : list Hit) :
  NoDup (hit_url <$> unique_sorted clean words normalized site query results)
  /\ StronglySorted (fun a b => (b.2 <= a.2)%Q)
       (ranked clean words normalized site query results)
  /\ (forall h, h ∈ unique_sorted clean words normalized site query results ->
        exists r, r ∈ results
          /\ h = cleaned clean r
          /\ truthy (hit_url r) = true /\ truthy (hit_title r) = true
          /\ (strip (lower (hit_title r)) ∉ generic_titles)
          /\ words query ∩ words (clean (hit_title r)) <> ∅).
Proof.
  destruct (foldl_consider_invariant clean words normalized site (words query)
              results results (mkFound [] ∅ ∅)) as [Hnd Hall].
  { done. }
  { constructor. }
  { intros u. simpl. rewrite elem_of_empty, elem_of_nil. done. }
  { constructor. }
  split_and!.
  - unfold unique_sorted, ranked. rewrite <- list_fmap_compose.
    rewrite sorted_desc_perm. exact Hnd.
  - apply sorted_desc_sorted.
  - intros h Hh. unfold unique_sorted in Hh.
    apply list_elem_of_fmap in Hh as ([h' q] & -> & Hin).
    unfold ranked in Hin. rewrite sorted_desc_perm in Hin.
    rewrite Forall_forall in Hall. destruct (Hall _ Hin) as (r & Hr & Hrel & H1 & _).
    exists r. simpl in H1. split_and!; try done;
      unfold relevant in Hrel; rewrite !andb_true_iff, !negb_true_iff in Hrel;
      destruct Hrel as [[[Hu Ht] Hg] Hw]; try done.
    + by apply bool_decide_eq_false in Hg.
    + by apply bool_decide_eq_false in Hw.
Qed.

(** X29: a search that found something is not repeated: when the cache
    had no result for the query and the sites gave at least one result
    that was kept, the list returned is stored, and a second search for
    the same query returns that list and leaves the cache as it is,
    whatever the sites would answer, as long as the stored file is not
    older than 3600 seconds; a search that kept nothing stores nothing. *)
Theorem repeated_search_is_served_from_cache (_url_hash : string -> string)
    (Stamp : Type) (exceeds : Stamp -> Stamp -> Z -> bool)
    (clean : string -> string) (words : string -> gset string)
    (normalized site : string -> string)
    (search_dir : gmap string (Stamp * list Hit)) (now mtime now' mtime' : Stamp)
    (query : string) (results results' : list Hit) :
  get_search_results _url_hash exceeds search_dir now query None = None ->
  let first := search_all_sites_with_choices _url_hash exceeds clean words normalized
                 site search_dir now mtime query results in
  first.1 = unique_sorted clean words normalized site query results
  /\ (first.1 = [] -> first.2 = search_dir)
  /\ (first.1 <> [] -> exceeds now' mtime 3600 = false ->
      search_all_sites_with_choices _url_hash exceeds clean words normalized
        site first.2 now' mtime' query results' = first).
Proof.
  intros Hmiss first. unfold first, search_all_sites_with_choices. rewrite Hmiss.
  cbv zeta. cbn [fst snd]. split_and!; [done| |].
  - by intros ->.
  - intros Hne Hfresh.
    destruct (unique_sorted clean words normalized site query results) as [|r rs] eqn:Hu;
      [done|].
    unfold get_search_results, set_search_results. cbv zeta.
    rewrite lookup_insert_eq. simpl. rewrite Hfresh. simpl. done.
Qed.

Lemma repeated_search_is_served_from_cache_witness :
  let words := fun s : string => list_to_set (split_whitespace (lower s)) : gset string in
  let hit := mkHit "Dune Saga" "https://a.org/dune" "A" in
  let first := search_all_sites_with_choices id seconds_exceed id words id simple_netloc
                 ∅ 100 100 "dune" [hit; hit] in
  first.1 = [hit]
  /\ search_all_sites_with_choices id seconds_exceed id words id simple_netloc
       first.2 3000 3000 "dune" [] = first.
Proof.
  intros words hit first.
  assert (Hmiss : get_search_results id seconds_exceed
                    (∅ : gmap string (Z * list Hit)) 100 "dune" None = None)
    by reflexivity.
  destruct (repeated_search_is_served_from_cache id Z seconds_exceed id words id
              simple_netloc ∅ 100 100 3000 3000 "dune" [hit; hit] [] Hmiss)
    as (H1 & _ & H3).
  split.
  - unfold first. rewrite H1. vm_compute. reflexivity.
  - unfold first. apply H3; [|reflexivity]. rewrite H1. vm_compute. discriminate.
Defined.

(** * Resuming a job *)

(** C4 (the code at the failing input): a job of user "user42" over the
    four links chapter-1 to chapter-4 runs twice.  In the first run the
    downloads of chapter-1 and chapter-2 fail and those of chapter-3 and
    chapter-4 succeed, so the run leaves a progress record with status
    partial that lists chapter-3 and chapter-4 as completed, and the two
    downloads have stored their chapters in the chapter cache.  The second
    run takes chapter-3 and chapter-4 from the cache and submits only
    chapter-1 and chapter-2, but it numbers them 3 and 4, the position
    among the remaining links plus the number of cached chapters; both
    downloads succeed, and the final sort by number puts the four chapters
    in the order chapter-3, chapter-1, chapter-4, chapter-2, which the
    result then numbers 1 to 4. *)
Theorem resume_misorders_chapters :
  let A := "https://site.org/book/chapter-1"%string in
  let B := "https://site.org/book/chapter-2"%string in
  let C := "https://site.org/book/chapter-3"%string in
  let D := "https://site.org/book/chapter-4"%string in
  let novel := "https://site.org/book"%string in
  let fetched u n := mkChapter "" u n (Some u) in
  let first := mkJob novel 1 None (Some "user42"%string) "T" [A; B; C; D] 5 None id
                 (fun u n => if n <=? 2 then None else Some (fetched u n)) in
  let run1 := scrape id first empty_cache in
  let cache := set_chapter id
                 (set_chapter id (cache_after run1) C (fetched C 3) (Some novel))
                 D (fetched D 4) (Some novel) in
  let second := mkJob novel 1 None (Some "user42"%string) "T" [A; B; C; D] 5 None id
                  (fun u n => Some (fetched u n)) in
  let run2 := scrape id second cache in
  submitted run1 = [(A, 1); (B, 2); (C, 3); (D, 4)]
  /\ get_download_progress id cache "user42" novel
     = Some (mkProgress "T" 1 (Some 4) [C; D] [A; B] partial None)
  /\ range_links second = [A; B; C; D]
  /\ (preloaded id second cache).*1 = [C; D]
  /\ submitted run2 = [(A, 3); (B, 4)]
  /\ r_error (result run2) = None
  /\ r_failed_chapters (result run2) = 0%nat
  /\ ch_url <$> r_chapters (result run2) = [Some C; Some A; Some D; Some B]
  /\ chapter_num <$> r_chapters (result run2) = [1; 2; 3; 4].
Proof. vm_compute. repeat split. Qed.

(** * The order of the output *)












(** * An open-ended range *)



